(** * ERA5 interactive maps ([app.py]): a shallow embedding and its properties

    The Streamlit script is embedded as a function from the widget values of
    one run and the outside world (the THREDDS server, the climatology
    directory, the Natural Earth coastlines) to the outcome of that run.
    Python [float]s are IEEE-754 binary64 numbers and are modelled by Rocq's
    primitive floats; Python [str]s by byte strings; [xarray.Dataset]s by
    finite maps from variable names to arrays.  The array library itself
    (xarray / numpy) is an interface, [DataArrayOps].  The helpers decorated
    with [st.cache_resource] are embedded as they compute when the cache
    does not hold their arguments ([run]); the decorator is
    [cache_resource], the script with its three helpers called through
    their caches is [run_cached], and a [session] is a sequence of such
    runs on the same caches. *)

From Stdlib Require Import ZArith Floats DecimalString Ascii.
From stdpp Require Import gmap strings list.

Set Warnings "-inexact-float".
Set Default Proof Using "Type".

(** ** Python built-ins used by the script *)

Module Py.

(** [str(z)] and [f"{z}"] for an [int]. *)
Definition str_of_int (z : Z) : string := NilZero.string_of_int (Z.to_int z).

(** [f"{z:02d}"]: at least two characters, zero-padded after the sign. *)
Definition str_of_int_02d (z : Z) : string :=
  if bool_decide (0 ≤ z < 10)%Z then "0" +:+ str_of_int z else str_of_int z.

(** Python's full upper-case mapping of the characters outside ASCII, on
    their UTF-8 bytes.  Unicode's table is not reproduced here: the
    properties hold whatever it is. *)
Class Unicode : Type := { upper_non_ascii : string → string }.

(** [str.upper] on an ASCII character. *)
Definition upper_ascii (c : ascii) : ascii :=
  let n := N_of_ascii c in
  if ((97 <=? n) && (n <=? 122))%N then ascii_of_N (n - 32) else c.

Definition is_ascii (c : ascii) : bool := (N_of_ascii c <? 128)%N.

(** The upper-case form of a run of non-ASCII characters. *)
Definition upper_run `{!Unicode} (run : string) : string :=
  match run with
  | EmptyString => EmptyString
  | _ => upper_non_ascii run
  end.

(** [str.upper], character by character.  In UTF-8 the bytes below 128 are
    the ASCII characters and the maximal runs of the other bytes are whole
    non-ASCII characters; [run] holds the run being read. *)
Fixpoint upper_from `{!Unicode} (run s : string) : string :=
  match s with
  | EmptyString => upper_run run
  | String c s' =>
      if is_ascii c
      then upper_run run +:+ String (upper_ascii c) (upper_from EmptyString s')
      else upper_from (run +:+ String c EmptyString) s'
  end.

Definition upper `{!Unicode} (s : string) : string := upper_from EmptyString s.

(** [s.replace(old, new)]: every non-overlapping occurrence of [old],
    scanning from the left, becomes [new].  [skip] counts the characters
    of a matched occurrence that are still to be passed over. *)
Fixpoint replace_from (old new : string) (skip : nat) (s : string) : string :=
  match s with
  | EmptyString => EmptyString
  | String c s' =>
      match skip with
      | S k => replace_from old new k s'
      | O =>
          if String.prefix old s
          then new +:+ replace_from old new (String.length old - 1) s'
          else String c (replace_from old new 0 s')
      end
  end.

(** With an empty [old], Python puts [new] around every character. *)
Fixpoint interleave (new s : string) : string :=
  match s with
  | EmptyString => new
  | String c s' => new +:+ String c (interleave new s')
  end.

Definition replace (old new s : string) : string :=
  match old with
  | EmptyString => interleave new s
  | _ => replace_from old new 0 s
  end.

(** Truthiness of a [float]: everything but zero, NaN included. *)
Definition truthy (x : float) : bool := negb (x =? 0)%float.

(** [x or y] on floats. *)
Definition or_else (x y : float) : float := if truthy x then x else y.

(** [a >= b] and [a > b] on floats. *)
Definition ge (a b : float) : bool := (b <=? a)%float.
Definition gt (a b : float) : bool := (b <? a)%float.

End Py.

(** ** Exceptions and results *)

Inductive exn : Type :=
| KeyError (key : string)
| IndexError
| OSError (target : list string).

Inductive result (X : Type) : Type :=
| Ok (x : X)
| Raise (e : exn).
Arguments Ok {X} x.
Arguments Raise {X} e.

#[global] Instance result_ret : MRet result := λ X x, Ok x.
#[global] Instance result_bind : MBind result :=
  λ X Y f m, match m with Ok x => f x | Raise e => Raise e end.

(** A loop whose body may raise. *)
Fixpoint for_each {S X : Type} (body : S → X → result S) (l : list X) (s : S)
  : result S :=
  match l with
  | [] => Ok s
  | x :: l' => s' ← body s x; for_each body l' s'
  end.

(** [l[i]] on a sequence. *)
Definition index {X : Type} (l : list X) (i : nat) : result X :=
  match l !! i with
  | Some x => Ok x
  | None => Raise IndexError
  end.

(** ** Constants *)

Definition YEARS : list Z := seqZ 1980 43.
Definition COMMON_PLEVELS : list Z := [975; 850; 700; 500; 250; 100; 50; 10]%Z.

(** One row of the variable tables:
    [(domain, code, vname, units, cmap_abs, cmap_anom)]. *)
Record VarRow : Type := mkRow {
  domain : string;
  code : string;
  vname : string;
  units : string;
  cmap_abs : string;
  cmap_anom : string
}.

Definition SURFACE : list (string * VarRow) :=
  [ ("Sea-surface temperature", mkRow "sfc" "034" "sstk" "°C" "thermal" "RdBu_r");
    ("CAPE",                    mkRow "sfc" "059" "cape" "J kg⁻¹" "viridis" "PuOr");
    ("Surface geopotential",    mkRow "sfc" "129" "z" "m² s⁻²" "magma" "RdBu_r");
    ("Surface pressure",        mkRow "sfc" "134" "sp" "hPa" "icefire" "RdBu_r");
    ("Mean sea-level press.",   mkRow "sfc" "151" "msl" "hPa" "icefire" "RdBu_r");
    ("10-m zonal wind",         mkRow "sfc" "165" "10u" "m s⁻¹" "curl" "RdBu_r");
    ("10-m meridional wind",    mkRow "sfc" "166" "10v" "m s⁻¹" "curl_r" "RdBu_r");
    ("2-m temperature",         mkRow "sfc" "167" "2t" "°C" "thermal" "RdBu_r") ].

Definition PRESSURE : list (string * VarRow) :=
  [ ("Potential vorticity", mkRow "pl" "060" "pv" "PVU" "plasma" "RdBu_r");
    ("Geopotential",        mkRow "pl" "129" "z" "m² s⁻²" "magma" "RdBu_r");
    ("Temperature",         mkRow "pl" "130" "t" "K" "thermal" "RdBu_r");
    ("Zonal wind",          mkRow "pl" "131" "u" "m s⁻¹" "curl" "RdBu_r");
    ("Meridional wind",     mkRow "pl" "132" "v" "m s⁻¹" "curl_r" "RdBu_r");
    ("Specific humidity",   mkRow "pl" "133" "q" "kg kg⁻¹" "viridis" "BrBG");
    ("Vertical velocity",   mkRow "pl" "135" "w" "Pa s⁻¹" "icefire" "RdBu");
    ("Relative vorticity",  mkRow "pl" "138" "vo" "s⁻¹" "plasma" "RdBu_r");
    ("Divergence",          mkRow "pl" "155" "d" "s⁻¹" "plasma" "RdBu_r");
    ("Relative humidity",   mkRow "pl" "157" "r" "%" "viridis" "BrBG");
    ("Ozone",               mkRow "pl" "203" "o3" "kg kg⁻¹" "viridis" "RdBu_r") ].

(** [table[choice]] on a dict literal (its keys are distinct). *)
Fixpoint getitem {V : Type} (table : list (string * V)) (key : string) : result V :=
  match table with
  | [] => Raise (KeyError key)
  | (k, v) :: rest => if bool_decide (k = key) then Ok v else getitem rest key
  end.

(** [list(table)]: the keys, in insertion order. *)
Definition keys {V : Type} (table : list (string * V)) : list string := table.*1.

(** ** The sidebar *)

(** The arguments a slider is constructed with. *)
Record Slider : Type := mkSlider {
  sl_label : string;
  sl_min_value : float;
  sl_max_value : float;
  sl_value : float;
  sl_step : float;
  sl_format : string
}.

(** What the widgets return in one run.  A slider returns the position the
    user left it at, which may depend on how it was constructed (an untouched
    slider returns its [value]).  The widgets are Streamlit's: [slider] is
    the value of a slider that Streamlit displayed, and a run in which
    Streamlit refuses the arguments of a slider (equal or infinite bounds,
    say) and raises instead is not described from the colour-bar controls
    on. *)
Record Widgets : Type := mkWidgets {
  field_type : string;
  choice : string;
  plevel_choice : Z;
  yr : Z;
  mon : Z;
  show_anom : bool;
  show_coast : bool;
  slider : Slider → float;
  autoscale_pressed : bool
}.

(** The variable picked in the sidebar: its table row and [plevel]. *)
Definition selection (ui : Widgets) : result (VarRow * option Z) :=
  if bool_decide (field_type ui = "Surface")
  then row ← getitem SURFACE (choice ui); Ok (row, None)
  else row ← getitem PRESSURE (choice ui); Ok (row, Some (plevel_choice ui)).

(** ** Helpers *)

Definition rda_url (y : Z) (dom code var : string) : string :=
  let base := "https://thredds.rda.ucar.edu/thredds/dodsC/files/g/d633001_nc/" in
  let tail :=
    if bool_decide (dom = "sfc")
    then "e5.moda.an.sfc.128_" +:+ code +:+ "_" +:+ var +:+ ".ll025sc."
    else
      let extra := if bool_decide (var ∈ ["u"; "v"]) then "uv" else "sc" in
      "e5.moda.an.pl.128_" +:+ code +:+ "_" +:+ var +:+ ".ll025" +:+ extra +:+ "." in
  base +:+ "e5.moda.an." +:+ dom +:+ "/" +:+ Py.str_of_int y +:+ "/" +:+ tail
    +:+ Py.str_of_int y +:+ "010100_" +:+ Py.str_of_int y +:+ "120100.nc".

(** The candidate keys of [find_var], in the order they are tried. *)
Definition candidates `{!Py.Unicode} (short : string) : list string :=
  let up := Py.upper short in
  [up; "VAR_" +:+ up; Py.replace "10" "10M" up].

Fixpoint first_in {V : Type} (ds : gmap string V) (ks : list string) : option string :=
  match ks with
  | [] => None
  | k :: ks' => if bool_decide (is_Some (ds !! k)) then Some k else first_in ds ks'
  end.

Definition find_var `{!Py.Unicode} {V : Type} (ds : gmap string V) (short : string)
  : result string :=
  match first_in ds (candidates short) with
  | Some k => Ok k
  | None => Raise (KeyError short)
  end.

(** [ds[k]]. *)
Definition getvar {V : Type} (ds : gmap string V) (k : string) : result V :=
  match ds !! k with
  | Some v => Ok v
  | None => Raise (KeyError k)
  end.

(** [f"{lvl}"] for [plevel], which is [None] on the surface. *)
Definition str_of_plevel (lvl : option Z) : string :=
  match lvl with
  | Some l => Py.str_of_int l
  | None => "None"
  end.

(** ** The array library *)

(** What the script asks of [xarray.DataArray] and numpy.  Selecting by
    position or by label raises when there is nothing at that index or
    label.  [nanmin], [nanmax] and [nanquantile] are given after their
    conversion by [float(...)]. *)
Class DataArrayOps (A : Type) : Type := {
  isel_time : A → Z → result A;     (* [da.isel(time=i)] *)
  sel_level : A → Z → result A;     (* [da.sel(level=l)] *)
  sel_month : A → Z → result A;     (* [da.sel(month=m)] *)
  sub_scalar : A → float → A;       (* [da - c] *)
  div_scalar : A → float → A;       (* [da / c] *)
  sub_array : A → A → A;            (* [da - other] *)
  np_abs : A → A;
  np_nanmin : A → float;
  np_nanmax : A → float;
  np_nanquantile : A → float → float
}.

(** ** Coastline geometries *)

(** A shapely line: its coordinate sequence, (lon, lat) pairs. *)
Definition LineString : Type := list (float * float).

(** A geometry either has a [geoms] attribute or is a single line. *)
Inductive Geometry : Type :=
| Line (line : LineString)
| MultiLine (geoms : list LineString).

(** [getattr(geom, "geoms", [geom])]. *)
Definition geoms_of (g : Geometry) : list LineString :=
  match g with
  | Line l => [l]
  | MultiLine ls => ls
  end.

Record Scatter : Type := mkScatter {
  sc_x : list float;
  sc_y : list float;
  sc_mode : string;
  sc_line_color : string;
  sc_line_width : float;
  sc_hoverinfo : string;
  sc_showlegend : bool
}.

(** ** The figure and the outcome of a run *)

Record Figure (A : Type) : Type := mkFigure {
  fig_data : A;
  fig_color_continuous_scale : string;
  fig_color_label : string;
  fig_title : string;
  fig_cmin : float;
  fig_cmax : float;
  fig_traces : list Scatter
}.
Arguments mkFigure {A}.
Arguments fig_data {A}.
Arguments fig_color_continuous_scale {A}.
Arguments fig_color_label {A}.
Arguments fig_title {A}.
Arguments fig_cmin {A}.
Arguments fig_cmax {A}.
Arguments fig_traces {A}.

Inductive Outcome (A : Type) : Type :=
| Raised (e : exn)                (* an uncaught exception *)
| Stopped (error : string)        (* [st.sidebar.error(..); st.stop()] *)
| Rendered (fig : Figure A).      (* [st.plotly_chart(fig)] *)
Arguments Raised {A}.
Arguments Stopped {A}.
Arguments Rendered {A}.

(** The script's variables once the colour-bar controls have run. *)
Record Vars (A : Type) : Type := mkVars {
  v_row : VarRow;
  v_plevel : option Z;
  v_da : A;
  v_units : string;
  v_cmap : string;
  v_data_min : float;
  v_data_max : float;
  v_default_min : float;
  v_default_max : float;
  v_step : float;
  v_sliders : Slider * Slider;
  v_cmin : float;
  v_cmax : float
}.
Arguments mkVars {A}.
Arguments v_row {A}.
Arguments v_plevel {A}.
Arguments v_da {A}.
Arguments v_units {A}.
Arguments v_cmap {A}.
Arguments v_data_min {A}.
Arguments v_data_max {A}.
Arguments v_default_min {A}.
Arguments v_default_max {A}.
Arguments v_step {A}.
Arguments v_sliders {A}.
Arguments v_cmin {A}.
Arguments v_cmax {A}.

(** ** The outside world *)

(** [xr.open_dataset] on a URL and on a local path ([None]: it cannot be
    opened), the Natural Earth coastline at a resolution, and numpy's
    floating-point [np.mod]. *)
Record World (A : Type) : Type := mkWorld {
  thredds : string → option (gmap string A);
  files : list string → option (gmap string A);
  natural_earth_coastline : string → list Geometry;
  np_mod : float → float → float
}.
Arguments mkWorld {A}.
Arguments thredds {A}.
Arguments files {A}.
Arguments natural_earth_coastline {A}.
Arguments np_mod {A}.

Section App.
Context {A : Type} `{!DataArrayOps A} {unicode : Py.Unicode}.

(** The directory of [app.py]; [CLIM_DIR] is its [climatology] sibling. *)
Variable app_dir : list string.
Definition CLIM_DIR : list string := app_dir ++ ["climatology"].

Variable w : World A.

Definition open_year (url : string) : result (gmap string A) :=
  match thredds w url with
  | Some ds => Ok ds
  | None => Raise (OSError [url])
  end.

Definition clim_path (dom var : string) (lvl : option Z) : list string :=
  CLIM_DIR
    ++ [if bool_decide (dom = "sfc") then "sfc" else "pl"]
    ++ [if bool_decide (dom = "sfc") then var +:+ ".nc"
        else var +:+ "_" +:+ str_of_plevel lvl +:+ ".nc"].

Definition load_clim (dom var : string) (lvl : option Z) : result A :=
  let path := clim_path dom var lvl in
  ds ← match files w path with
       | Some ds => Ok ds
       | None => Raise (OSError path)
       end;
  k ← find_var ds var;
  getvar ds k.

(** *** [coastlines_trace] *)

(** The body of [for i in range(len(lon))]. *)
Definition vertex_step (gap : float) (lon lat : list float)
    (acc : list float * list float) (i : nat) : result (list float * list float) :=
  let '(xs, ys) := acc in
  x ← index lon i;
  y ← index lat i;
  let xs := xs ++ [x] in
  let ys := ys ++ [y] in
  if bool_decide (Z.of_nat i < Z.of_nat (length lon) - 1)%Z
  then
    x' ← index lon (i + 1);
    if Py.gt (abs (x' - x)) gap
    then Ok (xs ++ [nan], ys ++ [nan])
    else Ok (xs, ys)
  else Ok (xs, ys).

(** The body of [for line in getattr(geom, "geoms", [geom])]. *)
Definition line_step (gap : float) (acc : list float * list float)
    (line : LineString) : result (list float * list float) :=
  let lon := line.*1 in
  let lat := line.*2 in
  let lon := (λ x, np_mod w x 360) <$> lon in
  let '(xs, ys) := acc in
  for_each (vertex_step gap lon lat) (seq 0 (length lon)) (xs ++ [nan], ys ++ [nan]).

Definition geom_step (gap : float) (acc : list float * list float)
    (geom : Geometry) : result (list float * list float) :=
  for_each (line_step gap) (geoms_of geom) acc.

Definition coastlines_trace (res : string) (gap : float) : result Scatter :=
  '(xs, ys) ← for_each (geom_step gap) (natural_earth_coastline w res) ([], []);
  Ok (mkScatter xs ys "lines" "black" 0.8 "skip" false).

(** *** Load the monthly field *)

Definition load_field (row : VarRow) (plevel : option Z) (yr mon : Z) : result A :=
  ds ← open_year (rda_url yr (domain row) (code row) (vname row));
  k ← find_var ds (vname row);
  v ← getvar ds k;
  da ← isel_time v (mon - 1);
  match plevel with
  | Some l => sel_level da l
  | None => Ok da
  end.

(** *** Unit conversions *)

Definition unit_conversion (vname : string) (da : A) (units : string) : A * string :=
  let '(da, units) :=
    if bool_decide (vname ∈ ["sstk"; "2t"; "t"])
    then (sub_scalar da 273.15, "°C") else (da, units) in
  if bool_decide (vname ∈ ["sp"; "msl"])
  then (div_scalar da 100.0, "hPa") else (da, units).

(** *** Anomaly *)

(** Returns [(da, cmap, units)]. *)
Definition anomaly (row : VarRow) (plevel : option Z) (mon : Z) (show_anom : bool)
    (da : A) (units : string) : result (A * string * string) :=
  let cmap := cmap_abs row in
  if show_anom
  then
    clim ← load_clim (domain row) (vname row) plevel;
    clim_mon ← sel_month clim mon;
    Ok (sub_array da clim_mon, cmap_anom row, units +:+ " anomaly")
  else Ok (da, cmap, units).

(** *** The displayed field *)

(** The script from the sidebar down to the anomaly: the selected row and
    [plevel], and [(da, cmap, units)] as the colour-bar controls find
    them. *)
Definition displayed_field (ui : Widgets)
  : result (VarRow * option Z * (A * string * string)) :=
  '(row, plevel) ← selection ui;
  da ← load_field row plevel (yr ui) (mon ui);
  let '(da, units) := unit_conversion (vname row) da (units row) in
  shown ← anomaly row plevel (mon ui) (show_anom ui) da units;
  Ok (row, plevel, shown).

(** *** Colour-bar controls *)

Definition default_limits (show_anom : bool) (da : A) : float * float :=
  let data_min := np_nanmin da in
  let data_max := np_nanmax da in
  if show_anom
  then
    let default_max := np_nanmax (np_abs da) in
    let default_min := (- default_max)%float in
    (default_min, default_max)
  else (data_min, data_max).

Definition slider_step (default_min default_max : float) : float :=
  Py.or_else ((default_max - default_min) / 50) 1e-6.

(** The two sliders, as constructed. *)
Definition sliders (da : A) (show_anom : bool) : Slider * Slider :=
  let data_min := np_nanmin da in
  let data_max := np_nanmax da in
  let '(default_min, default_max) := default_limits show_anom da in
  let step := slider_step default_min default_max in
  (mkSlider "Min" data_min data_max default_min step "%.4g",
   mkSlider "Max" data_min data_max default_max step "%.4g").

(** [(cmin, cmax)] after the sliders and the auto-scale button. *)
Definition colour_limits (ui : Widgets) (da : A) : float * float :=
  let '(smin, smax) := sliders da (show_anom ui) in
  let cmin := slider ui smin in
  let cmax := slider ui smax in
  if autoscale_pressed ui
  then (np_nanquantile da 0.01, np_nanquantile da 0.99)
  else (cmin, cmax).

(** *** The script up to the validation check *)

Definition script (ui : Widgets) : result (Vars A) :=
  '(row, plevel) ← selection ui;
  da ← load_field row plevel (yr ui) (mon ui);
  let '(da, units) := unit_conversion (vname row) da (units row) in
  '(da, cmap, units) ← anomaly row plevel (mon ui) (show_anom ui) da units;
  let '(default_min, default_max) := default_limits (show_anom ui) da in
  let '(cmin, cmax) := colour_limits ui da in
  Ok (mkVars row plevel da units cmap (np_nanmin da) (np_nanmax da)
        default_min default_max (slider_step default_min default_max)
        (sliders da (show_anom ui)) cmin cmax).

(** *** Plot *)

Definition title (ui : Widgets) (plevel : option Z) : string :=
  let t := choice ui +:+ " • " +:+ Py.str_of_int_02d (mon ui) +:+ "/"
             +:+ Py.str_of_int (yr ui)
             +:+ match plevel with
                 | Some l => if bool_decide (l = 0%Z) then ""
                             else " • " +:+ Py.str_of_int l +:+ " hPa"
                 | None => ""
                 end in
  if show_anom ui then t +:+ " • anomaly" else t.

Definition plot (ui : Widgets) (v : Vars A) : result (Figure A) :=
  traces ← (if show_coast ui
            then tr ← coastlines_trace "110m" 10; Ok [tr]
            else Ok []);
  Ok (mkFigure (v_da v) (v_cmap v) (v_units v) (title ui (v_plevel v))
        (v_cmin v) (v_cmax v) traces).

(** *** One run of the script *)

Definition run (ui : Widgets) : Outcome A :=
  match script ui with
  | Raise e => Raised e
  | Ok v =>
      if Py.ge (v_cmin v) (v_cmax v)
      then Stopped "Min must be less than Max"
      else
        match plot ui v with
        | Raise e => Raised e
        | Ok fig => Rendered fig
        end
  end.

End App.

(** ** The widget values a user can produce *)

(** The radio offers two domains, each select box the keys of its table,
    the pressure levels, the years and the months 1 to 12. *)
Definition offered (ui : Widgets) : Prop :=
  ((field_type ui = "Surface" ∧ choice ui ∈ keys SURFACE)
   ∨ (field_type ui = "Pressure level" ∧ choice ui ∈ keys PRESSURE
      ∧ plevel_choice ui ∈ COMMON_PLEVELS))
  ∧ yr ui ∈ YEARS
  ∧ (1 ≤ mon ui ≤ 12)%Z.

(** ** The coastline overlay, as the specification words it *)

(** The vertices of one line in order, with a (NaN, NaN) break between two
    consecutive vertices whose longitudes differ by more than [gap]. *)
Fixpoint with_gap_breaks (gap : float) (pts : list (float * float))
  : list (float * float) :=
  match pts with
  | [] => []
  | p :: rest =>
      p :: match rest with
           | q :: _ => if Py.gt (abs (q.1 - p.1)) gap then [(nan, nan)] else []
           | [] => []
           end ++ with_gap_breaks gap rest
  end.

(** Every line of every geometry: longitudes reduced modulo 360, a break in
    front, then the line with its gap breaks. *)
Definition polyline_with_gap_breaks (mod_ : float → float → float) (gap : float)
    (geoms : list Geometry) : list (float * float) :=
  line ← (geoms ≫= geoms_of);
  (nan, nan) :: with_gap_breaks gap ((λ p, (mod_ p.1 360%float, p.2)) <$> line).

(** ** [st.cache_resource] *)

Section CacheResource.
Context {K V : Type} `{Countable K}.

(** One call of a decorated function as it can be observed: its arguments,
    whether the wrapped function was run, and what the call gave. *)
Record Call : Type := mkCall {
  call_args : K;
  call_ran : bool;
  call_result : result V
}.

(** The state of one decorated function: the results it holds and, for
    accounting only, the calls made so far, oldest first. *)
Record Memo : Type := mkMemo {
  cache : gmap K V;
  calls : list Call
}.

Definition empty_memo : Memo := mkMemo ∅ [].

(** Modelled from the spec: the decorator [st.cache_resource] is Streamlit's,
    not this repository's.  The specification describes it as a trivial
    memoize-by-argument wrapper with no eviction policy and no invalidation
    logic: a call whose arguments are in the cache returns the cached
    result; any other call runs the wrapped function and stores what it
    returns (an exception leaves the cache as it was and propagates). *)
Definition cache_resource (f : K → result V) (k : K) (m : Memo) : result V * Memo :=
  match cache m !! k with
  | Some v => (Ok v, mkMemo (cache m) (calls m ++ [mkCall k false (Ok v)]))
  | None =>
      match f k with
      | Ok v => (Ok v, mkMemo (<[k := v]> (cache m)) (calls m ++ [mkCall k true (Ok v)]))
      | Raise e => (Raise e, mkMemo (cache m) (calls m ++ [mkCall k true (Raise e)]))
      end
  end.

(** Memoized from the first call that returns: every later call with the
    same arguments gives the same result without running the wrapped
    function. *)
Definition memoized (log : list Call) : Prop :=
  ∀ i j ci cj v,
    i < j → log !! i = Some ci → log !! j = Some cj →
    call_args ci = call_args cj → call_result ci = Ok v →
    call_ran cj = false ∧ call_result cj = Ok v.

(** The wrapped function is skipped only for arguments with which an
    earlier call returned, and that call's result is given again. *)
Definition runs_unless_returned (log : list Call) : Prop :=
  ∀ j cj,
    log !! j = Some cj → call_ran cj = false →
    ∃ i ci v,
      i < j ∧ log !! i = Some ci ∧ call_args ci = call_args cj
      ∧ call_result ci = Ok v ∧ call_result cj = Ok v.

(** The wrapped function runs to a result at most once per argument. *)
Definition completes_once (log : list Call) : Prop :=
  ∀ i j ci cj vi vj,
    log !! i = Some ci → log !! j = Some cj →
    call_args ci = call_args cj →
    call_ran ci = true → call_result ci = Ok vi →
    call_ran cj = true → call_result cj = Ok vj →
    i = j.

(** No eviction: what a call has returned is in the cache. *)
Definition nothing_evicted (m : Memo) : Prop :=
  ∀ c v, c ∈ calls m → call_result c = Ok v → cache m !! call_args c = Some v.

(** As the specification words it: the wrapped function runs at most once
    per argument, and two calls with equal arguments give the same
    result. *)
Definition runs_at_most_once (log : list Call) : Prop :=
  ∀ i j ci cj,
    log !! i = Some ci → log !! j = Some cj →
    call_args ci = call_args cj →
    call_ran ci = true → call_ran cj = true →
    i = j.

Definition same_result_for_equal_arguments (log : list Call) : Prop :=
  ∀ i j ci cj,
    log !! i = Some ci → log !! j = Some cj →
    call_args ci = call_args cj →
    call_result ci = call_result cj.

(** Every cached value is the result of a logged call. *)
Definition cache_from_calls (m : Memo) : Prop :=
  ∀ k v, cache m !! k = Some v →
         ∃ c, c ∈ calls m ∧ call_args c = k ∧ call_result c = Ok v.

(** The invariant of a cache and its log. *)
Definition memo_inv (m : Memo) : Prop :=
  memoized (calls m) ∧ runs_unless_returned (calls m)
  ∧ nothing_evicted m ∧ cache_from_calls m.

End CacheResource.
Arguments Call K V : clear implicits.
Arguments Memo K V {_ _}.

Section CachedApp.
Context {A : Type} `{!DataArrayOps A} {unicode : Py.Unicode}.
Variable app_dir : list string.

(** The caches of the three decorated functions.  The script calls
    [coastlines_trace] without arguments. *)
Record Caches : Type := mkCaches {
  c_open_year : Memo string (gmap string A);
  c_load_clim : Memo (string * string * option Z) A;
  c_coastlines_trace : Memo unit Scatter
}.

Definition empty_caches : Caches := mkCaches empty_memo empty_memo empty_memo.

Variable w : World A.

Definition open_year_cached (url : string) (c : Caches)
  : result (gmap string A) * Caches :=
  let '(r, m) := cache_resource (open_year w) url (c_open_year c) in
  (r, mkCaches m (c_load_clim c) (c_coastlines_trace c)).

Definition load_clim_cached (dom var : string) (lvl : option Z) (c : Caches)
  : result A * Caches :=
  let '(r, m) :=
    cache_resource (λ args, load_clim app_dir w args.1.1 args.1.2 args.2)
      (dom, var, lvl) (c_load_clim c) in
  (r, mkCaches (c_open_year c) m (c_coastlines_trace c)).

Definition coastlines_trace_cached (c : Caches) : result Scatter * Caches :=
  let '(r, m) :=
    cache_resource (λ _, coastlines_trace w "110m" 10) () (c_coastlines_trace c) in
  (r, mkCaches (c_open_year c) (c_load_clim c) m).

(** The script again, with the three helpers called through their
    caches. *)
Definition load_field_cached (row : VarRow) (plevel : option Z) (yr mon : Z)
    (c : Caches) : result A * Caches :=
  let '(r, c) :=
    open_year_cached (rda_url yr (domain row) (code row) (vname row)) c in
  (ds ← r;
   k ← find_var ds (vname row);
   v ← getvar ds k;
   da ← isel_time v (mon - 1);
   match plevel with
   | Some l => sel_level da l
   | None => Ok da
   end, c).

Definition anomaly_cached (row : VarRow) (plevel : option Z) (mon : Z)
    (show_anom : bool) (da : A) (units : string) (c : Caches)
  : result (A * string * string) * Caches :=
  let cmap := cmap_abs row in
  if show_anom
  then
    let '(r, c) := load_clim_cached (domain row) (vname row) plevel c in
    (clim ← r;
     clim_mon ← sel_month clim mon;
     Ok (sub_array da clim_mon, cmap_anom row, units +:+ " anomaly"), c)
  else (Ok (da, cmap, units), c).

Definition script_cached (ui : Widgets) (c : Caches) : result (Vars A) * Caches :=
  match selection ui with
  | Raise e => (Raise e, c)
  | Ok (row, plevel) =>
      let '(r, c) := load_field_cached row plevel (yr ui) (mon ui) c in
      match r with
      | Raise e => (Raise e, c)
      | Ok da =>
          let '(da, units) := unit_conversion (vname row) da (units row) in
          let '(r, c) :=
            anomaly_cached row plevel (mon ui) (show_anom ui) da units c in
          match r with
          | Raise e => (Raise e, c)
          | Ok (da, cmap, units) =>
              let '(default_min, default_max) := default_limits (show_anom ui) da in
              let '(cmin, cmax) := colour_limits ui da in
              (Ok (mkVars row plevel da units cmap (np_nanmin da) (np_nanmax da)
                     default_min default_max (slider_step default_min default_max)
                     (sliders da (show_anom ui)) cmin cmax), c)
          end
      end
  end.

Definition plot_cached (ui : Widgets) (v : Vars A) (c : Caches)
  : result (Figure A) * Caches :=
  let '(traces, c) :=
    if show_coast ui
    then let '(r, c) := coastlines_trace_cached c in (tr ← r; Ok [tr], c)
    else (Ok [], c) in
  (traces ← traces;
   Ok (mkFigure (v_da v) (v_cmap v) (v_units v) (title ui (v_plevel v))
         (v_cmin v) (v_cmax v) traces), c).

Definition run_cached (ui : Widgets) (c : Caches) : Outcome A * Caches :=
  let '(r, c) := script_cached ui c in
  match r with
  | Raise e => (Raised e, c)
  | Ok v =>
      if Py.ge (v_cmin v) (v_cmax v)
      then (Stopped "Min must be less than Max", c)
      else
        let '(r, c) := plot_cached ui v c in
        (match r with
         | Raise e => Raised e
         | Ok fig => Rendered fig
         end, c)
  end.

End CachedApp.
Arguments Caches A : clear implicits.
Arguments mkCaches {A}.
Arguments c_open_year {A}.
Arguments c_load_clim {A}.
Arguments c_coastlines_trace {A}.
Arguments empty_caches {A}.

(** A session: the script runs again and again on the same caches, each
    time with the widgets and the outside world of that moment. *)
Fixpoint session {A : Type} `{!DataArrayOps A} {unicode : Py.Unicode}
    (app_dir : list string) (runs : list (World A * Widgets)) (c : Caches A)
  : list (Outcome A) * Caches A :=
  match runs with
  | [] => ([], c)
  | (w, ui) :: rest =>
      let '(o, c1) := run_cached app_dir w ui c in
      let '(os, c2) := session app_dir rest c1 in
      (o :: os, c2)
  end.

(** The arguments the script calls [open_year] with in a run, if the run
    gets there, and those it would call [load_clim] with. *)
Definition open_year_args (ui : Widgets) : option string :=
  match selection ui with
  | Ok (row, _) => Some (rda_url (yr ui) (domain row) (code row) (vname row))
  | Raise _ => None
  end.

Definition load_clim_args (ui : Widgets) : option (string * string * option Z) :=
  match selection ui with
  | Ok (row, plevel) =>
      if show_anom ui then Some (domain row, vname row, plevel) else None
  | Raise _ => None
  end.

(** The invariant of the three caches, and what it means for them to hold
    only what the functions give in the world [w]. *)
Definition caches_inv {A : Type} (c : Caches A) : Prop :=
  memo_inv (c_open_year c) ∧ memo_inv (c_load_clim c)
  ∧ memo_inv (c_coastlines_trace c).

Definition caches_agree {A : Type} `{!DataArrayOps A} {unicode : Py.Unicode}
    (app_dir : list string) (w : World A) (c : Caches A) : Prop :=
  (∀ url ds, cache (c_open_year c) !! url = Some ds → open_year w url = Ok ds)
  ∧ (∀ args clim, cache (c_load_clim c) !! args = Some clim →
                  load_clim app_dir w args.1.1 args.1.2 args.2 = Ok clim)
  ∧ (∀ tr, cache (c_coastlines_trace c) !! () = Some tr →
           coastlines_trace w "110m" 10 = Ok tr).

(** ** A small in-memory array type

    An instance of [DataArrayOps] on which the script can be run: an array
    is a list of cells, each a value with the coordinates it sits at. *)

Module Sample.

(** An excerpt of Unicode's upper-case mapping: [é] and [É] give [É],
    [ß] gives [SS]. *)
#[global] Instance unicode : Py.Unicode := {
  upper_non_ascii run :=
    if bool_decide (run = "é") then "É"
    else if bool_decide (run = "ß") then "SS"
    else run
}.

Record Cell : Type := mkCell {
  coords : list (string * Z);
  value : float
}.

Definition DataArray : Type := list Cell.

(** Keep the cells at [label] along [dim] and drop that dimension. *)
Definition pick (dim : string) (label : Z) (a : DataArray) : DataArray :=
  omap (λ c,
    if bool_decide ((dim, label) ∈ coords c)
    then Some (mkCell (filter (λ p, p.1 ≠ dim) (coords c)) (value c))
    else None) a.

(** The same, raising [missing] when no cell is there. *)
Definition select (missing : exn) (dim : string) (label : Z) (a : DataArray)
  : result DataArray :=
  match pick dim label a with
  | [] => Raise missing
  | cells => Ok cells
  end.

Definition map_values (f : float → float) (a : DataArray) : DataArray :=
  (λ c, mkCell (coords c) (f (value c))) <$> a.

(** Cell by cell, on the coordinates both arrays have. *)
Definition subtract (a b : DataArray) : DataArray :=
  omap (λ c,
    match filter (λ c', coords c' = coords c) b with
    | c' :: _ => Some (mkCell (coords c) (value c - value c'))
    | [] => None
    end) a.

(** A reduction that skips NaN (and is NaN when nothing is left). *)
Definition nan_reduce (better : float → float → bool) (a : DataArray) : float :=
  foldr (λ c acc,
    let x := value c in
    if is_nan x then acc
    else if is_nan acc then x
    else if better x acc then x else acc) nan a.

Fixpoint insert_sorted (x : float) (l : list float) : list float :=
  match l with
  | [] => [x]
  | y :: l' => if (x <=? y)%float then x :: l else y :: insert_sorted x l'
  end.

Definition of_nat (n : nat) : float := of_uint63 (Uint63.of_Z (Z.of_nat n)).

(** Linear interpolation between the two closest ranks. *)
Definition quantile (a : DataArray) (q : float) : float :=
  let vs := foldr insert_sorted [] (filter (λ x, is_nan x = false) (value <$> a)) in
  match vs with
  | [] => nan
  | _ =>
      let n := length vs in
      let h := (q * of_nat (n - 1))%float in
      let lo := length (filter (λ i, (of_nat i <=? h)%float = true) (seq 1 (n - 1))) in
      let lower := nth lo vs nan in
      let upper := nth (Nat.min (lo + 1) (n - 1)) vs nan in
      (lower + (upper - lower) * (h - of_nat lo))%float
  end.

#[global] Instance ops : DataArrayOps DataArray := {
  isel_time a i := select IndexError "time" i a;
  sel_level a l := select (KeyError (Py.str_of_int l)) "level" l a;
  sel_month a m := select (KeyError (Py.str_of_int m)) "month" m a;
  sub_scalar a c := map_values (λ x, x - c)%float a;
  div_scalar a c := map_values (λ x, x / c)%float a;
  sub_array := subtract;
  np_abs := map_values abs;
  np_nanmin := nan_reduce (λ x y, (x <? y)%float);
  np_nanmax := nan_reduce (λ x y, (y <? x)%float);
  np_nanquantile := quantile
}.

(** One year of sea-surface temperature on two grid points, in kelvin:
    a constant and a seasonal cycle. *)
Definition sst_year : DataArray :=
  (mon ← seqZ 0 12;
   [mkCell [("time", mon); ("cell", 0%Z)] 290;
    mkCell [("time", mon); ("cell", 1%Z)] (280 + of_nat (Z.to_nat mon))%float]).

(** Its monthly climatology, in the units the script displays. *)
Definition sst_clim : DataArray :=
  (mon ← seqZ 1 12;
   [mkCell [("month", mon); ("cell", 0%Z)] 16;
    mkCell [("month", mon); ("cell", 1%Z)] 10]).

(** One year of zonal wind on two levels. *)
Definition u_year : DataArray :=
  (mon ← seqZ 0 12;
   lvl ← [500; 250]%Z;
   [mkCell [("time", mon); ("level", lvl); ("cell", 0%Z)] (of_nat (Z.to_nat lvl) / 100)%float;
    mkCell [("time", mon); ("level", lvl); ("cell", 1%Z)] (-3)%float]).

(** A square island, a line across the date line, and numpy's [np.mod]
    for the longitudes that occur. *)
Definition coast : list Geometry :=
  [ Line [(-1, 0); (1, 0); (1, 2); (-1, 2); (-1, 0)]%float;
    MultiLine [ [(170, 60); (175, 61)]%float; [(20, -10)]%float; [] ] ].

Definition mod_near (x m : float) : float :=
  if (x <? 0)%float then (x + m)%float
  else if (x <? m)%float then x else (x - m)%float.

Definition world : World DataArray := {|
  thredds url :=
    if bool_decide (url = rda_url 2001 "sfc" "034" "sstk")
    then Some {[ "SSTK" := sst_year ]}
    else if bool_decide (url = rda_url 2001 "pl" "131" "u")
    then Some {[ "U" := u_year ]}
    else None;
  files path :=
    if bool_decide (path = ["srv"; "app"; "climatology"; "sfc"; "sstk.nc"])
    then Some {[ "VAR_SSTK" := sst_clim ]}
    else None;
  natural_earth_coastline res := if bool_decide (res = "110m") then coast else [];
  np_mod := mod_near
|}.

Definition app_dir : list string := ["srv"; "app"].

(** Widgets left as first shown: sliders at their [value]. *)
Definition sst_may : Widgets := {|
  field_type := "Surface";
  choice := "Sea-surface temperature";
  plevel_choice := 975;
  yr := 2001;
  mon := 5;
  show_anom := false;
  show_coast := true;
  slider := sl_value;
  autoscale_pressed := false
|}.

Definition sst_may_anomaly : Widgets := {|
  field_type := "Surface"; choice := "Sea-surface temperature";
  plevel_choice := 975; yr := 2001; mon := 5;
  show_anom := true; show_coast := false;
  slider := sl_value; autoscale_pressed := false
|}.

Definition u_250_march : Widgets := {|
  field_type := "Pressure level"; choice := "Zonal wind";
  plevel_choice := 250; yr := 2001; mon := 3;
  show_anom := false; show_coast := false;
  slider := sl_value; autoscale_pressed := true
|}.

(** The same machine with the server and the disk out of reach. *)
Definition offline : World DataArray := {|
  thredds url := None;
  files path := None;
  natural_earth_coastline res := [];
  np_mod := mod_near
|}.

(** A field that is plus infinity wherever it is defined. *)
Definition inf_field : DataArray :=
  [mkCell [("cell", 0%Z)] infinity; mkCell [("cell", 1%Z)] nan].

End Sample.

(** ** Notions used by the further properties *)

(** All the vertices of the coastline, longitudes reduced modulo 360, in
    the order the loops visit them. *)
Definition coastline_vertices (mod_ : float → float → float) (geoms : list Geometry)
  : list (float * float) :=
  line ← (geoms ≫= geoms_of);
  (λ p, (mod_ p.1 360%float, p.2)) <$> line.

(** No two neighbours of a list of longitudes are more than [gap] apart. *)
Fixpoint no_jump (gap : float) (l : list float) : Prop :=
  match l with
  | x :: (x' :: _) as l' => Py.gt (abs (x' - x)) gap = false ∧ no_jump gap l'
  | _ => True
  end.

(** The widgets with the coastline box set to [b]. *)
Definition with_show_coast (b : bool) (ui : Widgets) : Widgets :=
  mkWidgets (field_type ui) (choice ui) (plevel_choice ui) (yr ui) (mon ui)
    (show_anom ui) b (slider ui) (autoscale_pressed ui).

(** Every (variable, year) the sidebar can ask the server for. *)
Definition offered_fetches : list (VarRow * Z) :=
  row ← (SURFACE ++ PRESSURE).*2; y ← YEARS; [(row, y)].

(** Every (variable, [plevel]) the sidebar can ask a climatology for. *)
Definition offered_climatologies : list (VarRow * option Z) :=
  ((λ row, (row, None)) <$> SURFACE.*2)
  ++ (row ← PRESSURE.*2; l ← COMMON_PLEVELS; [(row, Some l)]).

(** No string of the list occurs twice. *)
Fixpoint distinctb (l : list string) : bool :=
  match l with
  | [] => true
  | x :: l' => forallb (λ y, negb (String.eqb x y)) l' && distinctb l'
  end.

(** ** Auxiliary predicates on floats *)

(** Both limits are the same infinity. *)
Definition same_infinity (a b : float) : bool := is_infinity a && (a =? b)%float.

(** The sign of an IEEE-754 value that has one. *)
Definition has_sign (s : bool) (x : spec_float) : Prop :=
  match x with
  | S754_zero s' | S754_infinity s' | S754_finite s' _ _ => s' = s
  | S754_nan => False
  end.

(** A zero of either sign, a positive number or plus infinity. *)
Definition nonneg (x : spec_float) : Prop :=
  match x with
  | S754_zero _ => True
  | S754_infinity s | S754_finite s _ _ => s = false
  | S754_nan => False
  end.

(** * Properties *)

(** ** Python built-ins on the inputs the script gives them *)

Example upper_10u `{!Py.Unicode} : Py.upper "10u" = "10U".
Proof. reflexivity. Qed.

Example upper_sstk `{!Py.Unicode} : Py.upper "sstk" = "SSTK".
Proof. reflexivity. Qed.

Example replace_10u : Py.replace "10" "10M" "10U" = "10MU".
Proof. reflexivity. Qed.

Example replace_all_occurrences : Py.replace "10" "10M" "1010X110" = "10M10MX110M".
Proof. reflexivity. Qed.

Example replace_absent : Py.replace "10" "10M" "SSTK" = "SSTK".
Proof. reflexivity. Qed.

Example str_of_int_year : Py.str_of_int 1980 = "1980".
Proof. reflexivity. Qed.

Example candidates_10u `{!Py.Unicode} : candidates "10u" = ["10U"; "VAR_10U"; "10MU"].
Proof. reflexivity. Qed.

(** ** The error monad *)

Lemma bind_Ok {X Y : Type} (m : result X) (f : X → result Y) (y : Y) :
  m ≫= f = Ok y ↔ ∃ x, m = Ok x ∧ f x = Ok y.
Proof.
  destruct m as [x|e]; simpl; split.
  - intros Hf. exists x. by split.
  - by intros (x' & [= <-] & Hf).
  - intros [=].
  - by intros (x' & [=] & _).
Qed.

(** ** [find_var] *)

Lemma first_in_Some {V : Type} (ds : gmap string V) (ks : list string) (k : string) :
  first_in ds ks = Some k → k ∈ ks ∧ is_Some (ds !! k).
Proof.
  induction ks as [|k0 ks IH]; simpl; [done |].
  case_bool_decide as Hk0.
  - intros [= <-]. split; [left | done].
  - intros [Hin Hk]%IH. split; [by right | done].
Qed.

Lemma find_var_Ok `{!Py.Unicode} {V : Type} (ds : gmap string V) (short k : string) :
  find_var ds short = Ok k → k ∈ candidates short ∧ is_Some (ds !! k).
Proof.
  unfold find_var. destruct (first_in ds (candidates short)) as [k'|] eqn:Hf; [|done].
  intros [= <-]. by apply first_in_Some.
Qed.

(** What [find_var] returns can be read from the dataset. *)
Lemma getvar_find_var `{!Py.Unicode} {V : Type} (ds : gmap string V) (short k : string) :
  find_var ds short = Ok k → ∃ v, ds !! k = Some v ∧ getvar ds k = Ok v.
Proof.
  intros [_ [v Hv]]%find_var_Ok. exists v. unfold getvar. by rewrite Hv.
Qed.

(** C8: [find_var] returns the first key present in the dataset among the
    upper-cased name, that name prefixed with [VAR_], and that name with
    every [10] replaced by [10M], tried in this order; it raises [KeyError]
    with the original short name exactly when none of the three is present. *)
Theorem find_var_first_present `{!Py.Unicode} {V : Type} (ds : gmap string V) (short : string) :
  let up := Py.upper short in
  let k1 := up in
  let k2 := "VAR_" +:+ up in
  let k3 := Py.replace "10" "10M" up in
  (is_Some (ds !! k1) → find_var ds short = Ok k1)
  ∧ (ds !! k1 = None → is_Some (ds !! k2) → find_var ds short = Ok k2)
  ∧ (ds !! k1 = None → ds !! k2 = None → is_Some (ds !! k3) →
     find_var ds short = Ok k3)
  ∧ (find_var ds short = Raise (KeyError short)
     ↔ ds !! k1 = None ∧ ds !! k2 = None ∧ ds !! k3 = None)
  ∧ (∀ e, find_var ds short = Raise e → e = KeyError short).
Proof.
  intros up k1 k2 k3. subst k1 k2 k3.
  unfold find_var, candidates. cbn [first_in]. fold up.
  generalize up ("VAR_" +:+ up) (Py.replace "10" "10M" up). clear up.
  intros k1 k2 k3. repeat split.
  - intros H1. by rewrite bool_decide_eq_true_2.
  - intros H1 H2. rewrite bool_decide_eq_false_2 by (rewrite H1; by intros [? [=]]).
    by rewrite bool_decide_eq_true_2.
  - intros H1 H2 H3.
    rewrite bool_decide_eq_false_2 by (rewrite H1; by intros [? [=]]).
    rewrite bool_decide_eq_false_2 by (rewrite H2; by intros [? [=]]).
    by rewrite bool_decide_eq_true_2.
  - repeat case_bool_decide; try done. by apply eq_None_not_Some.
  - repeat case_bool_decide; try done. by apply eq_None_not_Some.
  - repeat case_bool_decide; try done. by apply eq_None_not_Some.
  - intros (H1 & H2 & H3).
    rewrite !bool_decide_eq_false_2; [done | | |]; apply eq_None_not_Some; done.
  - intros e. repeat case_bool_decide; by intros [=].
Qed.

(** ** Strings *)

Lemma length_append (s t : string) :
  String.length (s +:+ t) = String.length s + String.length t.
Proof. induction s as [|c s IH]; simpl; [done | by rewrite IH]. Qed.

Lemma append_nonempty_ne (s t : string) : t ≠ "" → s +:+ t ≠ s.
Proof.
  intros Ht Heq. apply (f_equal String.length) in Heq.
  rewrite length_append in Heq. destruct t; [done | simpl in Heq; lia].
Qed.

(** ** The variable tables *)

Lemma getitem_Ok {V : Type} (table : list (string * V)) (key : string) (v : V) :
  getitem table key = Ok v → (key, v) ∈ table.
Proof.
  induction table as [|[k v'] table IH]; simpl; [done |].
  case_bool_decide as Hk.
  - intros [= <-]. subst. left.
  - intros Hv. right. by apply IH.
Qed.

(** The two dict literals repeat no key. *)
Lemma keys_distinct : NoDup (keys SURFACE) ∧ NoDup (keys PRESSURE).
Proof. split; apply (bool_decide_unpack _); vm_compute; reflexivity. Qed.

(** Every row's anomaly colormap differs from its absolute one, surface
    rows are in domain [sfc] and pressure-level rows in domain [pl]. *)
Lemma SURFACE_rows (key : string) (row : VarRow) :
  (key, row) ∈ SURFACE → domain row = "sfc" ∧ cmap_abs row ≠ cmap_anom row.
Proof.
  unfold SURFACE. rewrite !elem_of_cons, elem_of_nil.
  intros H; repeat (destruct H as [[= -> ->]|H]; [by split |]); done.
Qed.

Lemma PRESSURE_rows (key : string) (row : VarRow) :
  (key, row) ∈ PRESSURE → domain row = "pl" ∧ cmap_abs row ≠ cmap_anom row.
Proof.
  unfold PRESSURE. rewrite !elem_of_cons, elem_of_nil.
  intros H; repeat (destruct H as [[= -> ->]|H]; [by split |]); done.
Qed.

Lemma selection_Ok (ui : Widgets) (row : VarRow) (plevel : option Z) :
  selection ui = Ok (row, plevel) →
  cmap_abs row ≠ cmap_anom row
  ∧ ((field_type ui = "Surface" ∧ domain row = "sfc" ∧ plevel = None)
     ∨ (field_type ui ≠ "Surface" ∧ domain row = "pl"
        ∧ plevel = Some (plevel_choice ui))).
Proof.
  unfold selection. case_bool_decide as Hft.
  - intros (r & [Hdom Hcm]%getitem_Ok%SURFACE_rows & [= <- <-])%bind_Ok.
    split; [done | by left].
  - intros (r & [Hdom Hcm]%getitem_Ok%PRESSURE_rows & [= <- <-])%bind_Ok.
    split; [done | by right].
Qed.

(** ** IEEE-754 arithmetic

    Primitive floats are related to their specification, [spec_float], by
    the standard library's [FloatAxioms]; the facts below are proved on the
    specification. *)

Section IEEE754.
Local Open Scope Z_scope.

Lemma SFcompare_antisym (x y : spec_float) :
  SFcompare y x = option_map CompOpp (SFcompare x y).
Proof.
  destruct x as [sx|sx| |sx mx ex], y as [sy|sy| |sy my ey]; simpl; try done;
    try (by destruct sx); try (by destruct sy); try (by destruct sx, sy).
  destruct sx, sy; try done; rewrite (Z.compare_antisym ex ey);
    destruct (ex ?= ey); simpl; try done;
    change (PosDef.Pos.compare_cont Eq ?a ?b) with (Pos.compare a b);
    rewrite (Pos.compare_antisym mx my); by destruct (mx ?= my)%positive.
Qed.

Lemma shr_1_nonneg (mrs : shr_record) : 0 ≤ shr_m mrs → 0 ≤ shr_m (shr_1 mrs).
Proof.
  destruct mrs as [m r s]. simpl. destruct m as [|p|p]; [done | | lia].
  intros _. destruct p; simpl; lia.
Qed.

Lemma iter_pos_nonneg (n : positive) (mrs : shr_record) :
  0 ≤ shr_m mrs → 0 ≤ shr_m (SpecFloat.iter_pos shr_1 n mrs).
Proof.
  revert mrs. induction n as [n IH|n IH|]; intros mrs Hm; simpl.
  - by apply IH, IH, shr_1_nonneg.
  - by apply IH, IH.
  - by apply shr_1_nonneg.
Qed.

Lemma shr_fexp_nonneg (m e : Z) (l : location) :
  0 ≤ m → 0 ≤ shr_m (shr_fexp prec emax m e l).1.
Proof.
  intros Hm. unfold shr_fexp, shr.
  assert (0 ≤ shr_m (shr_record_of_loc m l)) by (by destruct l as [|[]]).
  destruct (fexp prec emax (Zdigits2 m + e) - e); simpl; [done | | done].
  by apply iter_pos_nonneg.
Qed.

Lemma round_nearest_even_nonneg (m : Z) (l : location) :
  0 ≤ m → 0 ≤ round_nearest_even m l.
Proof.
  intros Hm. destruct l as [|[]]; simpl; try lia. destruct (IntDef.Z.even m); lia.
Qed.

Lemma binary_round_aux_sign (s : bool) (m e : Z) (l : location) :
  0 ≤ m → has_sign s (binary_round_aux prec emax s m e l).
Proof.
  intros Hm. unfold binary_round_aux.
  pose proof (shr_fexp_nonneg m e l Hm) as H1.
  destruct (shr_fexp prec emax m e l) as [mrs' e'].
  pose proof (shr_fexp_nonneg _ e' loc_Exact
                (round_nearest_even_nonneg _ (loc_of_shr_record mrs') H1)) as H2.
  destruct (shr_fexp prec emax _ e' loc_Exact) as [mrs'' e''].
  simpl in H2. destruct (shr_m mrs''); [done | | lia].
  by destruct (e'' <=? emax - prec).
Qed.

Lemma binary_round_sign (s : bool) (m : positive) (e : Z) :
  has_sign s (binary_round prec emax s m e).
Proof.
  unfold binary_round. destruct (shl_align _ _ _) as [mz ez].
  by apply binary_round_aux_sign.
Qed.

Lemma binary_normalize_nonneg (m e : Z) :
  0 ≤ m → nonneg (binary_normalize prec emax m e false).
Proof.
  intros Hm. unfold binary_normalize. destruct m as [|p|p]; [done | | lia].
  pose proof (binary_round_sign false p e) as Hs.
  by destruct (binary_round prec emax false p e).
Qed.

Lemma SFdiv_nonneg (x : spec_float) (m : positive) (e : Z) :
  nonneg x → nonneg (SF64div x (S754_finite false m e)).
Proof.
  destruct x as [sx|sx| |sx mx ex]; simpl; try done.
  - intros ->. done.
  - intros ->. simpl.
    destruct (SFdiv_core_binary prec emax (Z.pos mx) ex (Z.pos m) e)
      as [[q e'] l] eqn:Hdiv.
    assert (Hq : 0 ≤ q).
    { unfold SFdiv_core_binary in Hdiv.
      set (m' := match _ with 0 => Z.pos mx | Z.pos _ => _ | Z.neg _ => 0 end) in Hdiv.
      assert (Hm' : 0 ≤ m').
      { unfold m'. destruct (_ - _ - _); [lia | | lia]. apply Z.shiftl_nonneg. lia. }
      change IntDef.Z.div_eucl with Z.div_eucl in Hdiv.
      pose proof (Z.div_pos m' (Z.pos m) Hm' ltac:(lia)) as Hdivpos.
      unfold Z.div in Hdivpos.
      destruct (Z.div_eucl m' (Z.pos m)) as [q' r']. by injection Hdiv as <- _ _. }
    pose proof (binary_round_aux_sign false q e' l Hq) as Hs.
    by destruct (binary_round_aux prec emax false q e' l).
Qed.

Lemma digits2_pos_bounds (m : positive) :
  2 ^ (Z.pos (digits2_pos m) - 1) ≤ Z.pos m < 2 ^ Z.pos (digits2_pos m).
Proof.
  induction m as [m IH|m IH|]; simpl digits2_pos; [| |done].
  all: change (PosDef.Pos.succ ?p) with (Pos.succ p); rewrite Pos2Z.inj_succ.
  all: replace (Z.succ (Z.pos (digits2_pos m)) - 1)
         with (Z.succ (Z.pos (digits2_pos m) - 1)) by lia.
  all: rewrite !Z.pow_succ_r by lia; lia.
Qed.

Lemma bounded_facts (m : positive) (e : Z) :
  bounded prec emax m e = true →
  emin ≤ e ∧ Z.pos m < 2 ^ prec ∧ (emin < e → 2 ^ (prec - 1) ≤ Z.pos m).
Proof.
  unfold bounded, canonical_mantissa, fexp.
  intros [Hcan%Z.eqb_eq _]%andb_prop.
  pose proof (digits2_pos_bounds m) as [Hlo Hhi].
  assert (Hd : Z.pos (digits2_pos m) ≤ prec) by lia.
  repeat split.
  - lia.
  - eapply Z.lt_le_trans; [apply Hhi |]. apply Z.pow_le_mono_r; lia.
  - intros He. replace (Z.pos (digits2_pos m)) with prec in Hlo by lia. done.
Qed.

Lemma shl_align_value (m : positive) (e e' : Z) :
  e' ≤ e → Z.pos (shl_align m e e').1 = Z.pos m * 2 ^ (e - e').
Proof.
  intros He. unfold shl_align. destruct (e' - e) as [|d|d] eqn:Hd; simpl.
  - replace (e - e') with 0 by lia. simpl. lia.
  - lia.
  - replace (e - e') with (Z.pos d) by lia.
    change (PosDef.Pos.iter xO m d) with (shift_pos d m).
    rewrite shift_pos_correct. change (Z.pow_pos 2 d) with (2 ^ Z.pos d). lia.
Qed.

(** On valid operands, the order on (exponent, mantissa) is the order on
    the mantissas once aligned. *)
Lemma aligned_le (m1 m2 : positive) (e1 e2 : Z) :
  bounded prec emax m1 e1 = true → bounded prec emax m2 e2 = true →
  e1 < e2 ∨ (e1 = e2 ∧ (m1 ≤ m2)%positive) →
  Z.pos (shl_align m1 e1 (e1 `min` e2)).1 ≤ Z.pos (shl_align m2 e2 (e1 `min` e2)).1.
Proof.
  intros (Hemin1 & Hhi1 & _)%bounded_facts (_ & _ & Hlo2)%bounded_facts Hle.
  rewrite !shl_align_value by lia.
  destruct Hle as [Hlt|[-> Hm]].
  - rewrite Z.min_l by lia. rewrite Z.sub_diag, Z.mul_1_r.
    specialize (Hlo2 ltac:(lia)).
    assert (2 ^ 1 ≤ 2 ^ (e2 - e1)) by (apply Z.pow_le_mono_r; lia).
    assert (2 ^ prec = 2 ^ (prec - 1) * 2 ^ 1) as Hp by done.
    nia.
  - rewrite Z.min_id, Z.sub_diag. lia.
Qed.

Lemma SFsub_finite_nonneg (sx sy : bool) (mx my : positive) (ex ey : Z) :
  bounded prec emax mx ex = true → bounded prec emax my ey = true →
  SFleb (S754_finite sy my ey) (S754_finite sx mx ex) = true →
  nonneg (SF64sub (S754_finite sx mx ex) (S754_finite sy my ey)).
Proof.
  intros Hx Hy Hle. unfold SF64sub, SFsub. apply binary_normalize_nonneg.
  pose proof (aligned_le my mx ey ex Hy Hx) as Hyx.
  pose proof (aligned_le mx my ex ey Hx Hy) as Hxy.
  rewrite (Z.min_comm ey ex) in Hyx.
  unfold SFleb in Hle. simpl in Hle.
  change (PosDef.Pos.compare_cont Eq my mx) with (Pos.compare my mx) in Hle.
  destruct sx, sy; simpl; try done; try lia.
  - (* both negative *)
    enough (Z.pos (shl_align mx ex (ex `min` ey)).1
            ≤ Z.pos (shl_align my ey (ex `min` ey)).1) by lia.
    apply Hxy. destruct (Z.compare_spec ey ex) as [->|Hlt|Hgt]; try done; [|lia].
    right. split; [done |].
    destruct (Pos.compare_spec my mx); simpl in Hle; try done; lia.
  - (* both positive *)
    enough (Z.pos (shl_align my ey (ex `min` ey)).1
            ≤ Z.pos (shl_align mx ex (ex `min` ey)).1) by lia.
    apply Hyx. destruct (Z.compare_spec ey ex) as [->|Hlt|Hgt]; try done; [|lia].
    right. split; [done |].
    destruct (Pos.compare_spec my mx); simpl in Hle; try done; lia.
Qed.

(** [x - y] for valid [y <= x] that are not the same infinity. *)
Lemma SFsub_nonneg (x y : spec_float) :
  valid_binary x = true → valid_binary y = true →
  SFleb y x = true →
  (∀ s, x = S754_infinity s → y = S754_infinity s → False) →
  nonneg (SF64sub x y).
Proof.
  intros Hx Hy Hle Hinf.
  destruct x as [sx|sx| |sx mx ex], y as [sy|sy| |sy my ey];
    try (by apply SFsub_finite_nonneg);
    unfold SFleb in Hle; simpl in *; try done.
  - by destruct sx, sy.
  - by destruct sy.
  - by destruct sy.
  - destruct sx; [by destruct sy |done].
  - destruct sx, sy; try done; by destruct (Hinf _ eq_refl eq_refl).
  - by destruct sx.
  - by destruct sx.
  - by destruct sy.
Qed.

End IEEE754.


Lemma nonneg_zero_or_positive (x : spec_float) :
  nonneg x →
  SFeqb x (S754_zero false) = true ∨ SFltb (S754_zero false) x = true.
Proof.
  destruct x as [s|s| |s m e]; simpl; [by left | | done |]; intros ->; by right.
Qed.

Lemma slider_step_nonzero (a b : float) : (slider_step a b =? 0)%float = false.
Proof.
  unfold slider_step, Py.or_else, Py.truthy.
  by destruct ((b - a) / 50 =? 0)%float eqn:Hq.
Qed.

Lemma slider_step_positive (a b : float) :
  (a <=? b)%float = true → same_infinity a b = false →
  (0 <? slider_step a b)%float = true.
Proof.
  intros Hle Hinf.
  assert (Hq : nonneg (Prim2SF ((b - a) / 50))).
  { rewrite FloatAxioms.div_spec, FloatAxioms.sub_spec.
    change (Prim2SF 50) with (S754_finite false 7036874417766400 (-47)).
    apply SFdiv_nonneg, SFsub_nonneg; try apply Prim2SF_valid.
    - by rewrite <- FloatAxioms.leb_spec.
    - intros s Hb Ha. unfold same_infinity, is_infinity in Hinf.
      rewrite (FloatAxioms.eqb_spec (abs a) infinity), (FloatAxioms.eqb_spec a b),
        abs_spec, Ha, Hb in Hinf.
      by destruct s. }
  unfold slider_step, Py.or_else, Py.truthy.
  rewrite (FloatAxioms.eqb_spec ((b - a) / 50) 0).
  rewrite FloatAxioms.ltb_spec.
  change (Prim2SF 0) with (S754_zero false).
  destruct (nonneg_zero_or_positive _ Hq) as [Hz|Hp].
  - by rewrite Hz.
  - assert (SFeqb (Prim2SF ((b - a) / 50)) (S754_zero false) = false) as ->; [|done].
    unfold SFltb in Hp. unfold SFeqb.
    rewrite (SFcompare_antisym (S754_zero false)).
    by destruct (SFcompare (S754_zero false) _) as [[]|].
Qed.

Lemma same_infinity_opp (x : float) : same_infinity (- x) x = false.
Proof.
  unfold same_infinity, is_infinity.
  rewrite (FloatAxioms.eqb_spec (abs (- x)) infinity), (FloatAxioms.eqb_spec (- x) x).
  rewrite abs_spec, !opp_spec. change (Prim2SF infinity) with (S754_infinity false).
  destruct (Prim2SF x) as [s|s| |s m e]; try done; by destruct s.
Qed.

Section AppProperties.
Context {A : Type} `{!DataArrayOps A} {unicode : Py.Unicode}.
Variable app_dir : list string.
Variable w : World A.

(** ** Fetching the selected slice *)

Example rda_url_sst :
  rda_url 2001 "sfc" "034" "sstk" =
  "https://thredds.rda.ucar.edu/thredds/dodsC/files/g/d633001_nc/e5.moda.an.sfc/2001/e5.moda.an.sfc.128_034_sstk.ll025sc.2001010100_2001120100.nc".
Proof. reflexivity. Qed.

Example rda_url_u :
  rda_url 1980 "pl" "131" "u" =
  "https://thredds.rda.ucar.edu/thredds/dodsC/files/g/d633001_nc/e5.moda.an.pl/1980/e5.moda.an.pl.128_131_u.ll025uv.1980010100_1980120100.nc".
Proof. reflexivity. Qed.

(** C1: for every selection the widgets offer, the row in play is the one
    the chosen variable has in the table of the chosen domain, and the
    script opens the dataset at the URL made of the base,
    [e5.moda.an.{dom}/{y}/], the file name with that row's code and name and
    the grid suffix [ll025uv] exactly when the domain is [pl] and the
    variable is [u] or [v] ([ll025sc] otherwise), and
    [{y}010100_{y}120100.nc]; it takes time index [mon - 1], and the chosen
    pressure level if and only if the domain is the pressure-level one. *)
Theorem fetch_selected_slice (ui : Widgets) :
  offered ui →
  ∃ row plevel,
    selection ui = Ok (row, plevel)
    ∧ (choice ui, row)
      ∈ (if bool_decide (field_type ui = "Surface") then SURFACE else PRESSURE)
    ∧ plevel
      = (if bool_decide (field_type ui = "Surface") then None
         else Some (plevel_choice ui))
    ∧ let y := Py.str_of_int (yr ui) in
      let pl := bool_decide (domain row = "pl") in
      let grid :=
        if pl && bool_decide (vname row = "u" ∨ vname row = "v")
        then "ll025uv" else "ll025sc" in
      let url :=
        "https://thredds.rda.ucar.edu/thredds/dodsC/files/g/d633001_nc/"
        +:+ "e5.moda.an." +:+ domain row +:+ "/" +:+ y +:+ "/"
        +:+ "e5.moda.an." +:+ domain row +:+ ".128_" +:+ code row +:+ "_"
        +:+ vname row +:+ "." +:+ grid +:+ "."
        +:+ y +:+ "010100_" +:+ y +:+ "120100.nc" in
      (pl = true ↔ field_type ui = "Pressure level")
      ∧ (pl = false ↔ field_type ui = "Surface")
      ∧ rda_url (yr ui) (domain row) (code row) (vname row) = url
      ∧ load_field w row plevel (yr ui) (mon ui) =
          (ds ← open_year w url;
           k ← find_var ds (vname row);
           v ← getvar ds k;
           da ← isel_time v (mon ui - 1);
           if pl then sel_level da (plevel_choice ui) else Ok da).
Proof.
  intros [Hsel _]. destruct ui as [ft ch pc y m sa sc sl ap]; simpl in *.
  destruct Hsel as [[-> Hch]|(-> & Hch & _)];
    unfold keys in Hch; simpl in Hch;
    rewrite ?elem_of_cons, elem_of_nil in Hch;
    repeat (destruct Hch as [->|Hch]; [|try done]);
    (eexists _, _; split; [reflexivity|]);
    (split; [simpl; repeat constructor|]); (split; [reflexivity|]);
    cbv zeta; unfold load_field, rda_url;
    generalize (Py.str_of_int y); intros ystr;
    (split; [done|]); (split; [done|]); split; reflexivity.
Qed.

(** ** Unit conversions *)

(** C5: a field named [sstk], [2t] or [t] is decreased by 273.15 and its
    units become [°C]; one named [sp] or [msl] is divided by 100.0 and its
    units become [hPa]; any other field and its units are unchanged. *)
Theorem unit_conversion_cases (name : string) (da : A) (u : string) :
  (name ∈ ["sstk"; "2t"; "t"] →
     unit_conversion name da u = (sub_scalar da 273.15, "°C"))
  ∧ (name ∈ ["sp"; "msl"] →
     unit_conversion name da u = (div_scalar da 100.0, "hPa"))
  ∧ (name ∉ ["sstk"; "2t"; "t"; "sp"; "msl"] →
     unit_conversion name da u = (da, u)).
Proof.
  unfold unit_conversion. repeat split.
  - intros Hin. rewrite (bool_decide_eq_true_2 _ Hin).
    rewrite bool_decide_eq_false_2; [done |].
    intros Hin'. set_unfold. intuition (subst; discriminate).
  - intros Hin. rewrite (bool_decide_eq_true_2 (name ∈ ["sp"; "msl"]) Hin).
    rewrite bool_decide_eq_false_2; [done |].
    intros Hin'. set_unfold. intuition (subst; discriminate).
  - intros Hnot. rewrite !bool_decide_eq_false_2; [done | |];
      intros Hin; apply Hnot; set_unfold; tauto.
Qed.

(** ** The script's variables *)

Lemma script_Ok (ui : Widgets) (v : Vars A) :
  script app_dir w ui = Ok v →
  ∃ row plevel monthly da cmap u,
    selection ui = Ok (row, plevel)
    ∧ load_field w row plevel (yr ui) (mon ui) = Ok monthly
    ∧ anomaly app_dir w row plevel (mon ui) (show_anom ui)
        (unit_conversion (vname row) monthly (units row)).1
        (unit_conversion (vname row) monthly (units row)).2 = Ok (da, cmap, u)
    ∧ v = mkVars row plevel da u cmap (np_nanmin da) (np_nanmax da)
            (default_limits (show_anom ui) da).1
            (default_limits (show_anom ui) da).2
            (slider_step (default_limits (show_anom ui) da).1
                         (default_limits (show_anom ui) da).2)
            (sliders da (show_anom ui))
            (colour_limits ui da).1 (colour_limits ui da).2.
Proof.
  unfold script.
  intros ([row plevel] & Hsel & (monthly & Hload & Hrest)%bind_Ok)%bind_Ok.
  destruct (unit_conversion _ _ _) as [converted u0] eqn:Hconv.
  apply bind_Ok in Hrest as ([[da cmap] u] & Hanom & Hv).
  destruct (default_limits _ _) as [dmin dmax] eqn:Hdef.
  destruct (colour_limits _ _) as [cmin cmax] eqn:Hlim.
  injection Hv as <-.
  exists row, plevel, monthly, da, cmap, u.
  by rewrite Hconv, Hdef, Hlim.
Qed.

(** ** The anomaly view *)

(** C2: with the anomaly box ticked, the displayed field is the
    unit-converted monthly field minus the climatology at the chosen
    month, the climatology being read from [sfc/{var}.nc] (surface) or
    [pl/{var}_{lvl}.nc] (pressure level) under the climatology directory;
    the colormap is the variable's anomaly colormap and the units get
    [" anomaly"] appended.  With the box clear, field, absolute colormap
    and units are unchanged.  Colormap and units tell the two cases
    apart. *)
Theorem anomaly_view (ui : Widgets) (v : Vars A) :
  script app_dir w ui = Ok v →
  ∃ monthly,
    load_field w (v_row v) (v_plevel v) (yr ui) (mon ui) = Ok monthly
    ∧ let var := vname (v_row v) in
      let converted := (unit_conversion var monthly (units (v_row v))).1 in
      let u := (unit_conversion var monthly (units (v_row v))).2 in
      let clim_file :=
        if bool_decide (field_type ui = "Surface")
        then ["sfc"; var +:+ ".nc"]
        else ["pl"; var +:+ "_" +:+ Py.str_of_int (plevel_choice ui) +:+ ".nc"] in
      (show_anom ui = true →
         ∃ ds k clim clim_mon,
           files w (CLIM_DIR app_dir ++ clim_file) = Some ds
           ∧ find_var ds var = Ok k
           ∧ ds !! k = Some clim
           ∧ sel_month clim (mon ui) = Ok clim_mon
           ∧ v_da v = sub_array converted clim_mon
           ∧ v_cmap v = cmap_anom (v_row v)
           ∧ v_units v = u +:+ " anomaly")
      ∧ (show_anom ui = false →
           v_da v = converted
           ∧ v_cmap v = cmap_abs (v_row v)
           ∧ v_units v = u)
      ∧ (show_anom ui = true ↔ v_cmap v = cmap_anom (v_row v))
      ∧ (show_anom ui = true ↔ v_units v = u +:+ " anomaly").
Proof.
  intros (row & plevel & monthly & da & cmap & u' & Hsel & Hload & Hanom & ->)%script_Ok.
  exists monthly. simpl. split; [done |].
  destruct (unit_conversion _ _ _) as [converted u] eqn:Hconv. simpl in *.
  apply selection_Ok in Hsel as [Hcmap Hdom].
  unfold anomaly in Hanom. destruct (show_anom ui).
  - apply bind_Ok in Hanom as (clim & Hclim & (clim_mon & Hmon & [= <- <- <-])%bind_Ok).
    repeat split; try done.
    intros _. unfold load_clim in Hclim.
    apply bind_Ok in Hclim as (ds & Hds & (k & Hk & Hget)%bind_Ok).
    destruct (files w _) as [ds'|] eqn:Hfiles; [|done]. injection Hds as ->.
    exists ds, k, clim, clim_mon. repeat split; try done.
    + rewrite <- Hfiles. f_equal. unfold clim_path.
      destruct Hdom as [(-> & -> & ->)|(Hft & -> & ->)].
      * done.
      * by rewrite (bool_decide_eq_false_2 _ Hft).
    + apply getvar_find_var in Hk as (c & Hc & Hget'). congruence.
  - injection Hanom as <- <- <-.
    repeat split; try done.
    intros Heq. symmetry in Heq. by apply append_nonempty_ne in Heq.
Qed.

(** ** Colour limits *)

(** C4: when the auto-scale button is pressed, the colour limits are the
    0.01 and 0.99 NaN-ignoring quantiles of the displayed field, whatever
    the sliders say; otherwise they are what the two sliders return. *)
Theorem autoscale_limits (ui : Widgets) (v : Vars A) :
  script app_dir w ui = Ok v →
  (autoscale_pressed ui = true →
     v_cmin v = np_nanquantile (v_da v) 0.01
     ∧ v_cmax v = np_nanquantile (v_da v) 0.99)
  ∧ (autoscale_pressed ui = false →
     v_cmin v = slider ui (v_sliders v).1
     ∧ v_cmax v = slider ui (v_sliders v).2).
Proof.
  intros (row & plevel & monthly & da & cmap & u & _ & _ & _ & ->)%script_Ok.
  simpl. unfold colour_limits.
  destruct (sliders da (show_anom ui)) as [smin smax].
  by destruct (autoscale_pressed ui).
Qed.

(** C9: in the anomaly view the default limits are symmetric about zero,
    the default maximum being the largest absolute value of the displayed
    field (NaN ignored) and the default minimum its negation; otherwise
    they are the field's NaN-ignoring minimum and maximum.  These are the
    values the two sliders start from. *)
Theorem default_limits_by_view (ui : Widgets) (v : Vars A) :
  script app_dir w ui = Ok v →
  (show_anom ui = true →
     v_default_max v = np_nanmax (np_abs (v_da v))
     ∧ v_default_min v = (- v_default_max v)%float)
  ∧ (show_anom ui = false →
     v_default_min v = np_nanmin (v_da v)
     ∧ v_default_max v = np_nanmax (v_da v))
  ∧ sl_value (v_sliders v).1 = v_default_min v
  ∧ sl_value (v_sliders v).2 = v_default_max v.
Proof.
  intros (row & plevel & monthly & da & cmap & u & _ & _ & _ & ->)%script_Ok.
  simpl. unfold sliders, default_limits.
  by destruct (show_anom ui).
Qed.

(** ** The coastline overlay *)

Lemma index_fmap_at {X Y : Type} (f : X → Y) (before after : list X) (x : X) :
  index (f <$> (before ++ x :: after)) (length before) = Ok (f x).
Proof. unfold index. by rewrite list_lookup_fmap, list_lookup_middle. Qed.

Lemma index_fmap_next {X Y : Type} (f : X → Y) (before after : list X) (x y : X) :
  index (f <$> (before ++ x :: y :: after)) (length before + 1) = Ok (f y).
Proof.
  unfold index. rewrite list_lookup_fmap, (cons_middle x), app_assoc.
  rewrite list_lookup_middle; [done |]. rewrite length_app. simpl. lia.
Qed.

(** One turn of the vertex loop, at the vertex that follows [before]. *)
Lemma vertex_step_at (gap : float) (before rest : list (float * float))
    (p : float * float) (xs ys : list float) :
  let brk := match rest with
             | q :: _ => if Py.gt (abs (q.1 - p.1)) gap then [(nan, nan)] else []
             | [] => []
             end in
  vertex_step gap (before ++ p :: rest).*1 (before ++ p :: rest).*2
    (xs, ys) (length before)
  = Ok (xs ++ p.1 :: brk.*1, ys ++ p.2 :: brk.*2).
Proof.
  intros brk. unfold vertex_step. rewrite !index_fmap_at.
  cbn [mbind result_bind]. destruct rest as [|q rest'].
  - rewrite bool_decide_eq_false_2
      by (rewrite length_fmap, length_app; simpl; lia).
    done.
  - rewrite bool_decide_eq_true_2
      by (rewrite length_fmap, length_app; simpl; lia).
    rewrite index_fmap_next. cbn [mbind result_bind]. unfold brk.
    destruct (Py.gt (abs (q.1 - p.1)) gap); simpl; by rewrite <- ?app_assoc.
Qed.

(** The vertex loop, started at vertex [length before] with [xs] and [ys]
    accumulated, appends the rest of the line with its gap breaks. *)
Lemma vertex_loop (gap : float) (rest before : list (float * float))
    (xs ys : list float) :
  for_each (vertex_step gap (before ++ rest).*1 (before ++ rest).*2)
    (seq (length before) (length rest)) (xs, ys)
  = Ok (xs ++ (with_gap_breaks gap rest).*1, ys ++ (with_gap_breaks gap rest).*2).
Proof.
  revert before xs ys.
  induction rest as [|p rest IH]; intros before xs ys.
  - simpl. by rewrite !app_nil_r.
  - cbn [length seq for_each]. rewrite vertex_step_at.
    cbn [mbind result_bind].
    replace (S (length before)) with (length (before ++ [p]))
      by (rewrite length_app; simpl; lia).
    rewrite (cons_middle p before rest), app_assoc, IH.
    cbn [with_gap_breaks]. rewrite !fmap_cons, !fmap_app.
    by rewrite <- !app_assoc.
Qed.

Lemma line_step_spec (gap : float) (line : LineString) (xs ys : list float) :
  let pts := (nan, nan) ::
    with_gap_breaks gap ((λ p, (np_mod w p.1 360, p.2)) <$> line) in
  line_step w gap (xs, ys) line = Ok (xs ++ pts.*1, ys ++ pts.*2).
Proof.
  intros pts. unfold line_step.
  set (line' := (λ p, (np_mod w p.1 360, p.2)) <$> line).
  assert (Hlon : (λ x, np_mod w x 360) <$> line.*1 = line'.*1).
  { unfold line'. rewrite <- !list_fmap_compose. done. }
  assert (Hlat : line.*2 = line'.*2).
  { unfold line'. rewrite <- !list_fmap_compose. done. }
  rewrite Hlon, Hlat, length_fmap.
  pose proof (vertex_loop gap line' [] (xs ++ [nan]) (ys ++ [nan])) as Hloop.
  cbn [app length] in Hloop. rewrite Hloop.
  unfold pts. fold line'. rewrite !fmap_cons. simpl.
  by rewrite <- !app_assoc.
Qed.

Lemma lines_loop (gap : float) (lines : list LineString) (xs ys : list float) :
  let pts :=
    line ← lines;
    (nan, nan) :: with_gap_breaks gap ((λ p, (np_mod w p.1 360, p.2)) <$> line) in
  for_each (line_step w gap) lines (xs, ys) = Ok (xs ++ pts.*1, ys ++ pts.*2).
Proof.
  revert xs ys. induction lines as [|line lines IH]; intros xs ys pts.
  - simpl. by rewrite !app_nil_r.
  - cbn [for_each]. rewrite line_step_spec. cbn [mbind result_bind].
    rewrite IH. unfold pts. rewrite bind_cons, !fmap_app.
    by rewrite <- !app_assoc.
Qed.

Lemma geoms_loop (gap : float) (geoms : list Geometry) (xs ys : list float) :
  let pts := polyline_with_gap_breaks (np_mod w) gap geoms in
  for_each (geom_step w gap) geoms (xs, ys) = Ok (xs ++ pts.*1, ys ++ pts.*2).
Proof.
  revert xs ys. induction geoms as [|geom geoms IH]; intros xs ys pts.
  - simpl. by rewrite !app_nil_r.
  - cbn [for_each].
    change (geom_step w gap (xs, ys) geom)
      with (for_each (line_step w gap) (geoms_of geom) (xs, ys)).
    rewrite lines_loop.
    cbn [mbind result_bind]. rewrite IH.
    unfold pts, polyline_with_gap_breaks.
    rewrite bind_cons, bind_app, !fmap_app.
    by rewrite <- !app_assoc.
Qed.

(** The coastline trace is always built: no index is out of range. *)
Lemma coastlines_trace_Ok (res : string) (gap : float) :
  ∃ tr, coastlines_trace w res gap = Ok tr.
Proof.
  unfold coastlines_trace. rewrite geoms_loop. by eexists.
Qed.

(** C6: [coastlines_trace] returns one polyline: for every line of every
    coastline geometry, with the longitudes reduced modulo 360, a
    (NaN, NaN) break, then every vertex in order, with one more break
    between consecutive vertices whose longitudes differ by more than
    [gap]. *)
Theorem coastlines_trace_polyline (res : string) (gap : float) :
  let pts :=
    polyline_with_gap_breaks (np_mod w) gap (natural_earth_coastline w res) in
  coastlines_trace w res gap
  = Ok (mkScatter pts.*1 pts.*2 "lines" "black" 0.8 "skip" false).
Proof.
  intros pts. unfold coastlines_trace. by rewrite geoms_loop.
Qed.

(** ** The validation check *)

Lemma plot_Ok (ui : Widgets) (v : Vars A) :
  ∃ traces,
    plot w ui v = Ok (mkFigure (v_da v) (v_cmap v) (v_units v)
                        (title ui (v_plevel v)) (v_cmin v) (v_cmax v) traces).
Proof.
  unfold plot. destruct (show_coast ui).
  - destruct (coastlines_trace_Ok "110m" 10) as [tr ->]. by eexists.
  - by eexists.
Qed.


(** ** The slider step *)

(** C10, as the code has it: both sliders get the step
    [(default_max - default_min) / 50], or [1e-6] when that quotient is
    zero.  The step is never zero, whatever the field.  It is strictly
    positive whenever [default_max >= default_min] and the two limits are not
    the same infinity, which is always so in the anomaly view. *)
Theorem slider_step_sign (da : A) (anom : bool) :
  let dmin := (default_limits anom da).1 in
  let dmax := (default_limits anom da).2 in
  let step := slider_step dmin dmax in
  sl_step (sliders da anom).1 = step
  ∧ sl_step (sliders da anom).2 = step
  ∧ (step =? 0)%float = false
  ∧ (Py.ge dmax dmin = true → same_infinity dmin dmax = false →
     Py.gt step 0 = true)
  ∧ (anom = true → Py.ge dmax dmin = true → Py.gt step 0 = true).
Proof.
  intros dmin dmax step. repeat split.
  - unfold sliders, step, dmin, dmax. by destruct (default_limits anom da).
  - unfold sliders, step, dmin, dmax. by destruct (default_limits anom da).
  - apply slider_step_nonzero.
  - apply slider_step_positive.
  - intros -> Hge. apply slider_step_positive; [done |].
    unfold dmin, dmax, default_limits. simpl. apply same_infinity_opp.
Qed.

End AppProperties.

(** ** Cached functions *)

Section CacheResourceProperties.
Context {K V : Type} `{Countable K}.
Implicit Types (m : Memo K V) (f : K → result V) (k : K) (v : V).

Lemma memo_inv_empty : memo_inv (empty_memo (K := K) (V := V)).
Proof.
  split; [|split; [|split]].
  - intros i j ci cj v _ Hi. done.
  - intros j cj Hj. done.
  - intros c v Hc. by apply elem_of_nil in Hc.
  - intros k v Hk. simpl in Hk. by rewrite lookup_empty in Hk.
Qed.

(** What one call appends to the log. *)
Lemma cache_resource_calls f k m :
  ∃ c, calls (cache_resource f k m).2 = calls m ++ [c]
       ∧ call_args c = k
       ∧ call_result c = (cache_resource f k m).1
       ∧ match cache m !! k with
         | Some v => call_ran c = false ∧ call_result c = Ok v
         | None => call_ran c = true ∧ call_result c = f k
         end.
Proof.
  unfold cache_resource. destruct (cache m !! k) as [v|]; [by eexists |].
  destruct (f k) as [v|e]; by eexists.
Qed.

Lemma cache_resource_cache f k m k' :
  cache (cache_resource f k m).2 !! k'
  = match cache m !! k' with
    | Some v => Some v
    | None => if decide (k' = k)
              then match f k with Ok v => Some v | Raise _ => None end
              else None
    end.
Proof.
  unfold cache_resource. destruct (cache m !! k) as [v|] eqn:Hk.
  - simpl. destruct (cache m !! k') as [v'|] eqn:Hk'; [done |].
    destruct (decide (k' = k)) as [->|]; [congruence | done].
  - destruct (f k) as [v|e]; simpl.
    + destruct (decide (k' = k)) as [->|Hne].
      * by rewrite lookup_insert_eq, Hk.
      * rewrite lookup_insert_ne by done. by destruct (cache m !! k').
    + destruct (decide (k' = k)) as [->|Hne]; [by rewrite Hk |].
      by destruct (cache m !! k').
Qed.

Lemma cache_resource_keeps f k m k' v :
  cache m !! k' = Some v → cache (cache_resource f k m).2 !! k' = Some v.
Proof. intros Hk'. by rewrite cache_resource_cache, Hk'. Qed.

Lemma cache_resource_inv f k m : memo_inv m → memo_inv (cache_resource f k m).2.
Proof.
  intros (Hmemo & Hruns & Hev & Hfrom).
  destruct (cache_resource_calls f k m) as (c & Hcalls & Hargs & Hres & Hc).
  split; [|split; [|split]].
  - rewrite Hcalls. intros i j ci cj v Hij Hi Hj Hsame Hci.
    destruct (decide (j < length (calls m))) as [Hlt|Hge].
    + rewrite lookup_app_l in Hi, Hj by lia.
      exact (Hmemo i j ci cj v Hij Hi Hj Hsame Hci).
    + rewrite lookup_app_r in Hj by lia.
      destruct (j - length (calls m)) as [|n] eqn:Hn; [|done].
      injection Hj as <-.
      rewrite lookup_app_l in Hi by lia.
      assert (Hin : ci ∈ calls m) by (by eapply list_elem_of_lookup_2).
      pose proof (Hev ci v Hin Hci) as Hcache.
      rewrite Hsame, Hargs in Hcache. rewrite Hcache in Hc. done.
  - rewrite Hcalls. intros j cj Hj Hran.
    destruct (decide (j < length (calls m))) as [Hlt|Hge].
    + rewrite lookup_app_l in Hj by lia.
      destruct (Hruns j cj Hj Hran) as (i & ci & v & Hij & Hi & ?).
      exists i, ci, v. split; [done |]. split; [|done].
      rewrite lookup_app_l; [done | lia].
    + rewrite lookup_app_r in Hj by lia.
      destruct (j - length (calls m)) as [|n] eqn:Hn; [|done].
      injection Hj as <-.
      destruct (cache m !! k) as [v|] eqn:Hk; [|destruct Hc; congruence].
      destruct (Hfrom k v Hk) as (ci & [i Hi]%list_elem_of_lookup_1 & Hki & Hvi).
      exists i, ci, v. pose proof (lookup_lt_Some _ _ _ Hi).
      split; [lia |]. split; [by rewrite lookup_app_l by lia |].
      split; [congruence |]. split; [done | by destruct Hc].
  - intros c' v. rewrite Hcalls. intros [Hin|Hin%list_elem_of_singleton]%elem_of_app Hv.
    + by apply cache_resource_keeps, Hev.
    + subst c'. rewrite Hargs, cache_resource_cache.
      destruct (cache m !! k) as [v'|] eqn:Hk; [destruct Hc; congruence |].
      rewrite decide_True by done. destruct Hc as [_ Hfk].
      rewrite <- Hfk, Hv. done.
  - intros k' v. rewrite cache_resource_cache, Hcalls.
    destruct (cache m !! k') as [v'|] eqn:Hk'.
    + intros [= ->]. destruct (Hfrom k' v Hk') as (c' & Hin & ?).
      exists c'. split; [|done]. apply elem_of_app. by left.
    + destruct (decide (k' = k)) as [->|]; [|done].
      rewrite Hk' in Hc. destruct Hc as [_ Hfk].
      destruct (f k) as [v'|e]; [|done]. intros [= ->].
      exists c. split; [|done]. apply elem_of_app. right. by apply list_elem_of_singleton.
Qed.

Lemma memoized_completes_once (log : list (Call K V)) :
  memoized log → completes_once log.
Proof.
  intros Hmemo i j ci cj vi vj Hi Hj Hsame Hrani Hci Hranj Hcj.
  destruct (lt_eq_lt_dec i j) as [[Hlt|Heq]|Hgt]; [|done|].
  - destruct (Hmemo i j ci cj vi Hlt Hi Hj Hsame Hci). congruence.
  - destruct (Hmemo j i cj ci vj Hgt Hj Hi (eq_sym Hsame) Hcj). congruence.
Qed.

End CacheResourceProperties.

Section CachedAppProperties.
Context {A : Type} `{!DataArrayOps A} {unicode : Py.Unicode}.
Variable app_dir : list string.
Implicit Types (w : World A) (ui : Widgets) (c : Caches A).

Lemma caches_inv_empty : caches_inv (empty_caches (A := A)).
Proof. split; [|split]; apply memo_inv_empty. Qed.

Lemma caches_agree_empty w : caches_agree app_dir w empty_caches.
Proof.
  unfold caches_agree, empty_caches, empty_memo. simpl.
  split; [|split]; intros *; by rewrite lookup_empty.
Qed.

Lemma open_year_cached_inv w url c :
  caches_inv c → caches_inv (open_year_cached w url c).2.
Proof.
  intros (H1 & H2 & H3). unfold open_year_cached.
  pose proof (cache_resource_inv (open_year w) url _ H1) as H1'.
  destruct (cache_resource _ _ _) as [r m]. by split.
Qed.

Lemma load_clim_cached_inv w dom var lvl c :
  caches_inv c → caches_inv (load_clim_cached app_dir w dom var lvl c).2.
Proof.
  intros (H1 & H2 & H3). unfold load_clim_cached.
  pose proof (cache_resource_inv
                (λ args, load_clim app_dir w args.1.1 args.1.2 args.2)
                (dom, var, lvl) _ H2) as H2'.
  destruct (cache_resource _ _ _) as [r m]. by split; [|split].
Qed.

Lemma coastlines_trace_cached_inv w c :
  caches_inv c → caches_inv (coastlines_trace_cached w c).2.
Proof.
  intros (H1 & H2 & H3). unfold coastlines_trace_cached.
  pose proof (cache_resource_inv (λ _, coastlines_trace w "110m" 10) () _ H3)
    as H3'.
  destruct (cache_resource _ _ _) as [r m]. by split; [|split].
Qed.

Lemma load_field_cached_caches w row plevel y m c :
  (load_field_cached w row plevel y m c).2
  = (open_year_cached w (rda_url y (domain row) (code row) (vname row)) c).2.
Proof. unfold load_field_cached. by destruct (open_year_cached _ _ _). Qed.

Lemma anomaly_cached_caches w row plevel m show da units c :
  (anomaly_cached app_dir w row plevel m show da units c).2
  = if show then (load_clim_cached app_dir w (domain row) (vname row) plevel c).2
    else c.
Proof.
  unfold anomaly_cached. destruct show; [|done].
  by destruct (load_clim_cached _ _ _ _ _ _).
Qed.

Lemma plot_cached_caches w ui v c :
  (plot_cached w ui v c).2
  = if show_coast ui then (coastlines_trace_cached w c).2 else c.
Proof.
  unfold plot_cached. destruct (show_coast ui); [|done].
  by destruct (coastlines_trace_cached _ _).
Qed.

Lemma script_cached_inv w ui c :
  caches_inv c → caches_inv (script_cached app_dir w ui c).2.
Proof.
  intros Hc. unfold script_cached.
  destruct (selection ui) as [[row plevel]|e]; [|done].
  pose proof (load_field_cached_caches w row plevel (yr ui) (mon ui) c) as Hl.
  destruct (load_field_cached _ _ _ _ _ _) as [r c1]. simpl in Hl.
  assert (Hc1 : caches_inv c1) by (rewrite Hl; by apply open_year_cached_inv).
  destruct r as [monthly|e]; [|done].
  destruct (unit_conversion _ _ _) as [converted u].
  pose proof (anomaly_cached_caches w row plevel (mon ui) (show_anom ui)
                converted u c1) as Ha.
  destruct (anomaly_cached _ _ _ _ _ _ _ _ _) as [r c2]. simpl in Ha.
  assert (Hc2 : caches_inv c2).
  { rewrite Ha. destruct (show_anom ui); [by apply load_clim_cached_inv | done]. }
  destruct r as [[[da cmap] u']|e]; [|done].
  by destruct (default_limits _ _), (colour_limits _ _).
Qed.

Lemma run_cached_inv w ui c :
  caches_inv c → caches_inv (run_cached app_dir w ui c).2.
Proof.
  intros Hc. unfold run_cached.
  pose proof (script_cached_inv w ui c Hc) as Hs.
  destruct (script_cached _ _ _ _) as [r c1]. simpl in Hs.
  destruct r as [v|e]; [|done].
  destruct (Py.ge _ _); [done |].
  pose proof (plot_cached_caches w ui v c1) as Hp.
  destruct (plot_cached _ _ _ _) as [r c2]. simpl in *. rewrite Hp.
  destruct (show_coast ui); [by apply coastlines_trace_cached_inv | done].
Qed.

Lemma session_cons w ui runs c :
  session app_dir ((w, ui) :: runs) c
  = ((run_cached app_dir w ui c).1
       :: (session app_dir runs (run_cached app_dir w ui c).2).1,
     (session app_dir runs (run_cached app_dir w ui c).2).2).
Proof.
  simpl. destruct (run_cached _ _ _ _) as [o c1]. simpl.
  by destruct (session _ _ _).
Qed.

Lemma session_inv runs c :
  caches_inv c → caches_inv (session app_dir runs c).2.
Proof.
  revert c. induction runs as [|[w ui] runs IH]; intros c Hc; [done |].
  rewrite session_cons. simpl. by apply IH, run_cached_inv.
Qed.

(** *** With the world unchanged, the caches do not show *)

Lemma cache_resource_agree {K V : Type} `{Countable K} (f : K → result V)
    (k : K) (m : Memo K V) :
  (∀ k' v, cache m !! k' = Some v → f k' = Ok v) →
  (cache_resource f k m).1 = f k
  ∧ ∀ k' v, cache (cache_resource f k m).2 !! k' = Some v → f k' = Ok v.
Proof.
  intros Hm. split.
  - unfold cache_resource. destruct (cache m !! k) as [v|] eqn:Hk.
    + simpl. symmetry. by apply Hm.
    + by destruct (f k).
  - intros k' v. rewrite cache_resource_cache.
    destruct (cache m !! k') as [v'|] eqn:Hk'; [intros [= ->]; by apply Hm |].
    destruct (decide (k' = k)) as [->|]; [|done].
    destruct (f k); [by intros [= ->] | done].
Qed.

Lemma open_year_cached_agree w url c :
  caches_agree app_dir w c →
  (open_year_cached w url c).1 = open_year w url
  ∧ caches_agree app_dir w (open_year_cached w url c).2.
Proof.
  intros (H1 & H2 & H3). unfold open_year_cached.
  destruct (cache_resource_agree (open_year w) url _ H1) as [Hr H1'].
  destruct (cache_resource _ _ _) as [r m]. by split; [|split].
Qed.

Lemma load_clim_cached_agree w dom var lvl c :
  caches_agree app_dir w c →
  (load_clim_cached app_dir w dom var lvl c).1 = load_clim app_dir w dom var lvl
  ∧ caches_agree app_dir w (load_clim_cached app_dir w dom var lvl c).2.
Proof.
  intros (H1 & H2 & H3). unfold load_clim_cached.
  destruct (cache_resource_agree
              (λ args, load_clim app_dir w args.1.1 args.1.2 args.2)
              (dom, var, lvl) _ H2) as [Hr H2'].
  destruct (cache_resource _ _ _) as [r m]. by split; [|split].
Qed.

Lemma coastlines_trace_cached_agree w c :
  caches_agree app_dir w c →
  (coastlines_trace_cached w c).1 = coastlines_trace w "110m" 10
  ∧ caches_agree app_dir w (coastlines_trace_cached w c).2.
Proof.
  intros (H1 & H2 & H3). unfold coastlines_trace_cached.
  assert (H3' : ∀ k' tr, cache (c_coastlines_trace c) !! k' = Some tr →
                         (λ _ : (), coastlines_trace w "110m" 10) k' = Ok tr)
    by (intros [] tr; apply H3).
  destruct (cache_resource_agree _ () _ H3') as [Hr H3''].
  destruct (cache_resource _ _ _) as [r m]. split; [done |].
  split; [done | split; [done |]]. intros tr. apply H3''.
Qed.

Lemma script_cached_agree w ui c :
  caches_agree app_dir w c →
  (script_cached app_dir w ui c).1 = script app_dir w ui
  ∧ caches_agree app_dir w (script_cached app_dir w ui c).2.
Proof.
  intros Hc. unfold script_cached, script.
  destruct (selection ui) as [[row plevel]|e]; [|done].
  cbn [mbind result_bind].
  unfold load_field_cached, load_field.
  destruct (open_year_cached_agree w
              (rda_url (yr ui) (domain row) (code row) (vname row)) c Hc)
    as [Hr Hc1].
  destruct (open_year_cached _ _ _) as [r c1]. simpl in Hr, Hc1. rewrite Hr.
  destruct (_ ≫= _) as [monthly|e]; [|done].
  cbn [mbind result_bind].
  destruct (unit_conversion _ _ _) as [converted u].
  unfold anomaly_cached, anomaly. destruct (show_anom ui).
  - destruct (load_clim_cached_agree w (domain row) (vname row) plevel c1 Hc1)
      as [Hr' Hc2].
    destruct (load_clim_cached _ _ _ _ _ _) as [r' c2]. simpl in Hr', Hc2.
    rewrite Hr'.
    destruct (_ ≫= _) as [[[da cmap] u']|e]; [|done].
    cbn [mbind result_bind].
    by destruct (default_limits _ _), (colour_limits _ _).
  - cbn [mbind result_bind].
    by destruct (default_limits _ _), (colour_limits _ _).
Qed.

Lemma run_cached_agree w ui c :
  caches_agree app_dir w c →
  (run_cached app_dir w ui c).1 = run app_dir w ui
  ∧ caches_agree app_dir w (run_cached app_dir w ui c).2.
Proof.
  intros Hc. unfold run_cached, run.
  destruct (script_cached_agree w ui c Hc) as [Hr Hc1].
  destruct (script_cached _ _ _ _) as [r c1]. simpl in Hr, Hc1. rewrite <- Hr.
  destruct r as [v|e]; [|done].
  destruct (Py.ge _ _); [done |].
  unfold plot_cached, plot. destruct (show_coast ui); [|done].
  destruct (coastlines_trace_cached_agree w c1 Hc1) as [Hr' Hc2].
  destruct (coastlines_trace_cached _ _) as [r' c2]. simpl in *. rewrite <- Hr'.
  by destruct r'.
Qed.

(** Over a session in which the outside world stays as it is, every run
    gives what the script gives without any cache. *)
Lemma session_unchanged_world w (uis : list Widgets) :
  (session app_dir ((λ ui, (w, ui)) <$> uis) empty_caches).1
  = run app_dir w <$> uis.
Proof.
  generalize (caches_agree_empty w). generalize (empty_caches (A := A)).
  induction uis as [|ui uis IH]; intros c Hc; [done |].
  rewrite fmap_cons, session_cons. simpl.
  destruct (run_cached_agree w ui c Hc) as [-> Hc1]. f_equal. by apply IH.
Qed.

(** *** The calls a run makes *)

Lemma open_year_cached_memos w url c :
  (open_year_cached w url c).2
  = mkCaches (cache_resource (open_year w) url (c_open_year c)).2
      (c_load_clim c) (c_coastlines_trace c).
Proof. unfold open_year_cached. by destruct (cache_resource _ _ _). Qed.

Lemma load_clim_cached_memos w dom var lvl c :
  (load_clim_cached app_dir w dom var lvl c).2
  = mkCaches (c_open_year c)
      (cache_resource (λ args, load_clim app_dir w args.1.1 args.1.2 args.2)
         (dom, var, lvl) (c_load_clim c)).2
      (c_coastlines_trace c).
Proof. unfold load_clim_cached. by destruct (cache_resource _ _ _). Qed.

Lemma coastlines_trace_cached_memos w c :
  (coastlines_trace_cached w c).2
  = mkCaches (c_open_year c) (c_load_clim c)
      (cache_resource (λ _, coastlines_trace w "110m" 10) ()
         (c_coastlines_trace c)).2.
Proof. unfold coastlines_trace_cached. by destruct (cache_resource _ _ _). Qed.

Lemma run_cached_open_year w ui c :
  c_open_year (run_cached app_dir w ui c).2
  = match open_year_args ui with
    | Some url => (cache_resource (open_year w) url (c_open_year c)).2
    | None => c_open_year c
    end.
Proof.
  unfold run_cached, script_cached, open_year_args.
  destruct (selection ui) as [[row plevel]|e]; [|done].
  pose proof (load_field_cached_caches w row plevel (yr ui) (mon ui) c) as Hl.
  rewrite open_year_cached_memos in Hl.
  destruct (load_field_cached _ _ _ _ _ _) as [r c1]. simpl in Hl. subst c1.
  destruct r as [monthly|e]; [|done].
  destruct (unit_conversion _ _ _) as [converted u].
  match goal with
  | |- context [anomaly_cached ?d ?w ?r ?p ?m ?s ?da ?u ?c] =>
      pose proof (anomaly_cached_caches w r p m s da u c) as Ha;
      destruct (anomaly_cached d w r p m s da u c) as [r' c2]
  end.
  simpl in Ha.
  assert (Hc2 : c_open_year c2
                = (cache_resource (open_year w)
                     (rda_url (yr ui) (domain row) (code row) (vname row))
                     (c_open_year c)).2).
  { subst c2. destruct (show_anom ui); [|done].
    by rewrite load_clim_cached_memos. }
  destruct r' as [[[da cmap] u']|e]; [|done].
  destruct (default_limits _ _), (colour_limits _ _).
  destruct (Py.ge _ _); [done |].
  match goal with
  | |- context [plot_cached ?w ?ui ?v ?c] =>
      pose proof (plot_cached_caches w ui v c) as Hp;
      destruct (plot_cached w ui v c) as [r'' c3]
  end.
  simpl in *. subst c3. destruct (show_coast ui); [|done].
  by rewrite coastlines_trace_cached_memos.
Qed.

Lemma run_cached_load_clim w ui c :
  c_load_clim (run_cached app_dir w ui c).2 = c_load_clim c
  ∨ ∃ args,
      load_clim_args ui = Some args
      ∧ c_load_clim (run_cached app_dir w ui c).2
        = (cache_resource (λ args, load_clim app_dir w args.1.1 args.1.2 args.2)
             args (c_load_clim c)).2.
Proof.
  unfold run_cached, script_cached, load_clim_args.
  destruct (selection ui) as [[row plevel]|e]; [|by left].
  pose proof (load_field_cached_caches w row plevel (yr ui) (mon ui) c) as Hl.
  rewrite open_year_cached_memos in Hl.
  destruct (load_field_cached _ _ _ _ _ _) as [r c1]. simpl in Hl. subst c1.
  destruct r as [monthly|e]; [|by left].
  destruct (unit_conversion _ _ _) as [converted u].
  match goal with
  | |- context [anomaly_cached ?d ?w ?r ?p ?m ?s ?da ?u ?c] =>
      pose proof (anomaly_cached_caches w r p m s da u c) as Ha;
      destruct (anomaly_cached d w r p m s da u c) as [r' c2]
  end.
  simpl in Ha.
  assert (Hplot : ∀ v, c_load_clim (plot_cached w ui v c2).2 = c_load_clim c2).
  { intros v. rewrite plot_cached_caches. destruct (show_coast ui); [|done].
    by rewrite coastlines_trace_cached_memos. }
  assert (Hrest :
    c_load_clim
      (match r' with
       | Ok (da, cmap, units) =>
           let '(default_min, default_max) := default_limits (show_anom ui) da in
           let '(cmin, cmax) := colour_limits ui da in
           (Ok (mkVars row plevel da units cmap (np_nanmin da) (np_nanmax da)
                  default_min default_max (slider_step default_min default_max)
                  (sliders da (show_anom ui)) cmin cmax), c2)
       | Raise e => (Raise e, c2)
       end).2 = c_load_clim c2).
  { destruct r' as [[[da cmap] u']|e]; [|done].
    by destruct (default_limits _ _), (colour_limits _ _). }
  assert (Hgoal :
    c_load_clim c2 = c_load_clim c
    ∨ ∃ args,
        (if show_anom ui then Some (domain row, vname row, plevel) else None)
        = Some args
        ∧ c_load_clim c2
          = (cache_resource
               (λ args, load_clim app_dir w args.1.1 args.1.2 args.2)
               args (c_load_clim c)).2).
  { subst c2. destruct (show_anom ui); [|by left].
    right. eexists. split; [done |]. by rewrite load_clim_cached_memos. }
  destruct r' as [[[da cmap] u']|e]; [|done].
  destruct (default_limits _ _), (colour_limits _ _).
  destruct (Py.ge _ _); [done |].
  match goal with
  | |- context [plot_cached ?w ?ui ?v ?c] =>
      specialize (Hplot v); destruct (plot_cached w ui v c) as [r'' c3]
  end.
  simpl in *. by rewrite Hplot.
Qed.

Lemma session_open_year_calls runs c :
  call_args <$> calls (c_open_year (session app_dir runs c).2)
  = (call_args <$> calls (c_open_year c))
      ++ omap (λ run, open_year_args run.2) runs.
Proof.
  revert c. induction runs as [|[w ui] runs IH]; intros c.
  - simpl. by rewrite app_nil_r.
  - rewrite session_cons. simpl. rewrite IH, run_cached_open_year.
    destruct (open_year_args ui) as [url|]; [|done].
    destruct (cache_resource_calls (open_year w) url (c_open_year c))
      as (call & -> & <- & _).
    by rewrite fmap_app, <- app_assoc.
Qed.

Lemma session_load_clim_calls runs c call :
  call ∈ calls (c_load_clim (session app_dir runs c).2) →
  call ∈ calls (c_load_clim c)
  ∨ ∃ run, run ∈ runs ∧ load_clim_args run.2 = Some (call_args call).
Proof.
  revert c. induction runs as [|[w ui] runs IH]; intros c; [by left |].
  rewrite session_cons. simpl. intros [Hin|(run & Hrun & Hargs)]%IH.
  - destruct (run_cached_load_clim w ui c) as [Heq|(args & Hargs & Heq)];
      rewrite Heq in Hin; [by left |].
    destruct (cache_resource_calls
                (λ args, load_clim app_dir w args.1.1 args.1.2 args.2)
                args (c_load_clim c)) as (call' & Hcalls & <- & _).
    rewrite Hcalls in Hin.
    apply elem_of_app in Hin as [Hin|Hin%list_elem_of_singleton]; [by left |].
    subst call'. right. exists (w, ui). split; [left | done].
  - right. exists run. split; [by right | done].
Qed.

(** C7 (corrected): over every session of runs of the script, whatever the
    widgets and the outside world at each run, the script calls [open_year]
    once in every run that has a selection, with the URL of that selection,
    and [load_clim] only in the anomaly view, with the selected domain,
    name and level; and [open_year], [load_clim] and [coastlines_trace] are
    memoized from the first call that returns: every later call with equal
    arguments gives the same result without running the function, so each
    function runs to a result at most once per argument; what a call
    returned stays in the cache to the end of the session; and the function
    is skipped only where an earlier call with those arguments returned, so
    a call that raised is run again. *)
Theorem cached_calls_memoized (runs : list (World A * Widgets)) :
  let c := (session app_dir runs empty_caches).2 in
  (call_args <$> calls (c_open_year c)
   = omap (λ run, open_year_args run.2) runs
   ∧ ∀ call, call ∈ calls (c_load_clim c) →
             ∃ run, run ∈ runs ∧ load_clim_args run.2 = Some (call_args call))
  ∧ (memoized (calls (c_open_year c))
     ∧ memoized (calls (c_load_clim c))
     ∧ memoized (calls (c_coastlines_trace c)))
  ∧ (completes_once (calls (c_open_year c))
     ∧ completes_once (calls (c_load_clim c))
     ∧ completes_once (calls (c_coastlines_trace c)))
  ∧ (nothing_evicted (c_open_year c)
     ∧ nothing_evicted (c_load_clim c)
     ∧ nothing_evicted (c_coastlines_trace c))
  ∧ (runs_unless_returned (calls (c_open_year c))
     ∧ runs_unless_returned (calls (c_load_clim c))
     ∧ runs_unless_returned (calls (c_coastlines_trace c))).
Proof.
  intros c.
  destruct (session_inv runs empty_caches caches_inv_empty)
    as ((M1 & R1 & E1 & _) & (M2 & R2 & E2 & _) & (M3 & R3 & E3 & _)).
  fold c in M1, R1, E1, M2, R2, E2, M3, R3, E3.
  split.
  { split; [apply (session_open_year_calls runs empty_caches) |].
    intros call Hin.
    by destruct (session_load_clim_calls runs empty_caches call Hin)
      as [?%elem_of_nil|?]. }
  split; [done |]. split; [|done].
  split; [|split]; by apply memoized_completes_once.
Qed.

End CachedAppProperties.

(** * The script on concrete inputs *)

Example run_sst_may :
  ∃ fig, run Sample.app_dir Sample.world Sample.sst_may = Rendered fig
         ∧ fig_title fig = "Sea-surface temperature • 05/2001"
         ∧ fig_color_label fig = "°C"
         ∧ fig_color_continuous_scale fig = "thermal".
Proof. eexists. split; [vm_compute; reflexivity |]. by vm_compute. Qed.

Example run_offline :
  run Sample.app_dir Sample.offline Sample.sst_may
  = Raised (OSError [rda_url 2001 "sfc" "034" "sstk"]).
Proof. vm_compute. reflexivity. Qed.

Lemma offered_sst_may : offered Sample.sst_may.
Proof.
  repeat split; simpl; try lia.
  - left. split; [reflexivity |]. unfold keys. simpl. left.
  - apply elem_of_seqZ. lia.
Defined.

Lemma offered_u_250_march : offered Sample.u_250_march.
Proof.
  repeat split; simpl; try lia.
  - right. split; [reflexivity |]. split.
    + apply (list_elem_of_lookup_2 _ 3). reflexivity.
    + apply (list_elem_of_lookup_2 _ 4). reflexivity.
  - apply elem_of_seqZ. lia.
Defined.

Lemma fetch_selected_slice_witness :
  offered Sample.u_250_march
  ∧ ∃ row plevel,
      selection Sample.u_250_march = Ok (row, plevel)
      ∧ ("Zonal wind", row) ∈ PRESSURE
      ∧ row = mkRow "pl" "131" "u" "m s⁻¹" "curl" "RdBu_r"
      ∧ plevel = Some 250%Z
      ∧ rda_url 2001 (domain row) (code row) (vname row)
        = "https://thredds.rda.ucar.edu/thredds/dodsC/files/g/d633001_nc/e5.moda.an.pl/2001/e5.moda.an.pl.128_131_u.ll025uv.2001010100_2001120100.nc"
      ∧ load_field Sample.world row plevel 2001 3
        = Ok [Sample.mkCell [("cell", 0%Z)] 2.5; Sample.mkCell [("cell", 1%Z)] (-3)].
Proof.
  split; [exact offered_u_250_march |].
  destruct (fetch_selected_slice Sample.world Sample.u_250_march offered_u_250_march)
    as (row & plevel & Hsel & Hrow & Hplevel & Hrest).
  exists row, plevel. split; [exact Hsel |]. split; [exact Hrow |].
  vm_compute in Hsel. injection Hsel as <- <-.
  split; [reflexivity |]. split; [reflexivity |].
  cbv zeta in Hrest. destruct Hrest as (_ & _ & Hurl & Hload).
  split.
  - refine (eq_trans Hurl _). vm_compute. reflexivity.
  - refine (eq_trans Hload _). vm_compute. reflexivity.
Defined.

Lemma find_var_first_present_witness :
  find_var (V := nat) {[ "SSTK" := 1; "VAR_SSTK" := 2 ]} "sstk" = Ok "SSTK"
  ∧ find_var (V := nat) {[ "VAR_2T" := 1; "2t" := 2 ]} "2t" = Ok "VAR_2T"
  ∧ find_var (V := nat) {[ "VAR_10U" := 1; "10MU" := 2 ]} "10u" = Ok "VAR_10U"
  ∧ find_var (V := nat) {[ "10MU" := 1; "10u" := 2 ]} "10u" = Ok "10MU"
  ∧ find_var (V := nat) {[ "10u" := 1; "var_10u" := 2; "10mu" := 3 ]} "10u"
    = Raise (KeyError "10u")
  ∧ find_var (V := nat) {[ "VAR_CAFÉ" := 1 ]} "café" = Ok "VAR_CAFÉ".
Proof.
  refine (conj _ (conj _ (conj _ (conj _ (conj _ _))))).
  - refine (proj1 (find_var_first_present {[ "SSTK" := 1; "VAR_SSTK" := 2 ]}
                     "sstk") _).
    exists 1. vm_compute. reflexivity.
  - refine (proj1 (proj2 (find_var_first_present {[ "VAR_2T" := 1; "2t" := 2 ]}
                            "2t")) _ _).
    + vm_compute. reflexivity.
    + exists 1. vm_compute. reflexivity.
  - refine (proj1 (proj2 (find_var_first_present
                            {[ "VAR_10U" := 1; "10MU" := 2 ]} "10u")) _ _).
    + vm_compute. reflexivity.
    + exists 1. vm_compute. reflexivity.
  - refine (proj1 (proj2 (proj2 (find_var_first_present
                                   {[ "10MU" := 1; "10u" := 2 ]} "10u"))) _ _ _).
    + vm_compute. reflexivity.
    + vm_compute. reflexivity.
    + exists 1. vm_compute. reflexivity.
  - refine (proj2 (proj1 (proj2 (proj2 (proj2 (find_var_first_present
              {[ "10u" := 1; "var_10u" := 2; "10mu" := 3 ]} "10u"))))) _).
    repeat split; vm_compute; reflexivity.
  - refine (proj1 (proj2 (find_var_first_present {[ "VAR_CAFÉ" := 1 ]}
                            "café")) _ _).
    + vm_compute. reflexivity.
    + exists 1. vm_compute. reflexivity.
Defined.

Lemma coastlines_trace_polyline_witness :
  natural_earth_coastline Sample.world "110m"
  = [ Line [(-1, 0); (1, 0); (1, 2); (-1, 2); (-1, 0)]%float;
      MultiLine [ [(170, 60); (175, 61)]%float; [(20, -10)]%float; [] ] ]
  ∧ coastlines_trace Sample.world "110m" 10
    = Ok (mkScatter
            [nan; 359; nan; 1; 1; nan; 359; 359;
             nan; 170; 175; nan; 20; nan]%float
            [nan; 0; nan; 0; 2; nan; 2; 0;
             nan; 60; 61; nan; -10; nan]%float
            "lines" "black" 0.8 "skip" false).
Proof.
  split; [reflexivity |].
  refine (eq_trans (coastlines_trace_polyline Sample.world "110m" 10) _).
  vm_compute. reflexivity.
Defined.

(** A session of six runs.  The server and the disk are out of reach at
    the first, third, fifth and sixth run.  The first call of [open_year]
    raises and stores nothing, the second runs and returns, the other four
    are answered from the cache; [load_clim], called in the three runs of
    the anomaly view, raises, runs, and is answered from the cache;
    [coastlines_trace] runs in the second run and is answered from the
    cache in the sixth, which renders the figure of the second. *)
Lemma cached_calls_memoized_witness :
  let sst := Sample.sst_may in
  let anom := Sample.sst_may_anomaly in
  let url := rda_url 2001 "sfc" "034" "sstk" in
  let ds : gmap string Sample.DataArray := {[ "SSTK" := Sample.sst_year ]} in
  let path := ["srv"; "app"; "climatology"; "sfc"; "sstk.nc"] in
  let tr := coastlines_trace Sample.world "110m" 10 in
  let s := session Sample.app_dir
             [(Sample.offline, sst); (Sample.world, sst);
              (Sample.offline, anom); (Sample.world, anom);
              (Sample.offline, anom); (Sample.offline, sst)]
             empty_caches in
  calls (c_open_year s.2)
  = [mkCall url true (Raise (OSError [url]));
     mkCall url true (Ok ds);
     mkCall url false (Ok ds); mkCall url false (Ok ds);
     mkCall url false (Ok ds); mkCall url false (Ok ds)]
  ∧ calls (c_load_clim s.2)
    = [mkCall ("sfc", "sstk", None) true (Raise (OSError path));
       mkCall ("sfc", "sstk", None) true (Ok Sample.sst_clim);
       mkCall ("sfc", "sstk", None) false (Ok Sample.sst_clim)]
  ∧ calls (c_coastlines_trace s.2) = [mkCall () true tr; mkCall () false tr]
  ∧ (∃ fig, s.1 !! 0 = Some (Raised (OSError [url]))
            ∧ s.1 !! 1 = Some (Rendered fig) ∧ s.1 !! 5 = Some (Rendered fig))
  ∧ cache (c_open_year s.2) !! url = Some ds
  ∧ call_args <$> calls (c_open_year s.2) = [url; url; url; url; url; url]
  ∧ memoized (calls (c_open_year s.2))
  ∧ completes_once (calls (c_load_clim s.2))
  ∧ runs_unless_returned (calls (c_coastlines_trace s.2)).
Proof.
  intros sst anom url ds path tr s.
  split; [vm_compute; reflexivity |].
  split; [vm_compute; reflexivity |].
  split; [vm_compute; reflexivity |].
  split; [eexists; vm_compute; repeat split; reflexivity |].
  split; [vm_compute; reflexivity |].
  destruct (cached_calls_memoized Sample.app_dir
              [(Sample.offline, sst); (Sample.world, sst);
               (Sample.offline, anom); (Sample.world, anom);
               (Sample.offline, anom); (Sample.offline, sst)])
    as ((Hargs & _) & (Hm & _) & (_ & Hc & _) & _ & (_ & _ & Hr)).
  split; [exact Hargs |].
  split; [exact Hm |]. split; [exact Hc | exact Hr].
Defined.

(** The claim of C7 as first stated fails on a session of two runs with the
    same widgets, the server out of reach at the first and in reach at the
    second: [open_year] raises and stores nothing, so the second call, with
    the same URL, runs [xr.open_dataset] again and returns.  The function
    ran twice for one argument, and the two calls gave different results. *)
Lemma open_year_runs_again_after_raising :
  let ui := with_show_coast false Sample.sst_may in
  let url := rda_url 2001 "sfc" "034" "sstk" in
  let s := session Sample.app_dir [(Sample.offline, ui); (Sample.world, ui)]
             empty_caches in
  calls (c_open_year s.2)
  = [mkCall url true (Raise (OSError [url]));
     mkCall url true (Ok {[ "SSTK" := Sample.sst_year ]})]
  ∧ ¬ runs_at_most_once (calls (c_open_year s.2))
  ∧ ¬ same_result_for_equal_arguments (calls (c_open_year s.2)).
Proof.
  intros ui url s.
  assert (Hlog : calls (c_open_year s.2)
                 = [mkCall url true (Raise (OSError [url]));
                    mkCall url true (Ok {[ "SSTK" := Sample.sst_year ]})])
    by (vm_compute; reflexivity).
  split; [exact Hlog |]. rewrite Hlog. split.
  - intros Honce.
    by specialize (Honce 0 1 _ _ eq_refl eq_refl eq_refl eq_refl eq_refl).
  - intros Hsame. by specialize (Hsame 0 1 _ _ eq_refl eq_refl eq_refl).
Qed.

Lemma anomaly_view_witness :
  ∃ v, script Sample.app_dir Sample.world Sample.sst_may_anomaly = Ok v
       ∧ v_cmap v = "RdBu_r"
       ∧ v_units v = "°C anomaly".
Proof.
  destruct (script Sample.app_dir Sample.world Sample.sst_may_anomaly)
    as [v|e] eqn:Hscript; [|vm_compute in Hscript; discriminate].
  exists v. split; [reflexivity |].
  destruct (anomaly_view Sample.app_dir Sample.world _ v Hscript)
    as (monthly & Hload & Hrest).
  cbv zeta in Hrest. destruct Hrest as (Hon & _).
  destruct (Hon eq_refl) as (ds & k & clim & clim_mon & _ & _ & _ & _ & _ & Hcmap & Hunits).
  vm_compute in Hscript. injection Hscript as <-.
  split; [exact Hcmap |].
  rewrite Hunits. vm_compute in Hload. injection Hload as <-. vm_compute. reflexivity.
Defined.


Lemma autoscale_limits_witness :
  ∃ v, script Sample.app_dir Sample.world Sample.u_250_march = Ok v
       ∧ v_cmin v = np_nanquantile (v_da v) 0.01
       ∧ v_cmax v = np_nanquantile (v_da v) 0.99.
Proof.
  destruct (script Sample.app_dir Sample.world Sample.u_250_march)
    as [v|e] eqn:Hscript; [|vm_compute in Hscript; discriminate].
  exists v. split; [reflexivity |].
  destruct (autoscale_limits Sample.app_dir Sample.world _ v Hscript) as [Hon _].
  exact (Hon eq_refl).
Defined.

Lemma default_limits_by_view_witness :
  ∃ v, script Sample.app_dir Sample.world Sample.sst_may_anomaly = Ok v
       ∧ v_default_max v = np_nanmax (np_abs (v_da v))
       ∧ v_default_min v = (- v_default_max v)%float.
Proof.
  destruct (script Sample.app_dir Sample.world Sample.sst_may_anomaly)
    as [v|e] eqn:Hscript; [|vm_compute in Hscript; discriminate].
  exists v. split; [reflexivity |].
  destruct (default_limits_by_view Sample.app_dir Sample.world _ v Hscript)
    as [Hon _].
  exact (Hon eq_refl).
Defined.

(** The claim of C10 as first stated fails on a field whose only values are
    plus infinity: [default_max >= default_min] holds, the quotient is NaN,
    NaN is truthy, and the step is NaN, which is not positive. *)
Lemma slider_step_at_infinite_field :
  let dmin := (default_limits false Sample.inf_field).1 in
  let dmax := (default_limits false Sample.inf_field).2 in
  Py.ge dmax dmin = true
  ∧ Py.gt (slider_step dmin dmax) 0 = false
  ∧ sl_step (sliders Sample.inf_field false).1 = nan
  ∧ sl_step (sliders Sample.inf_field false).2 = nan.
Proof. vm_compute. done. Qed.

Lemma slider_step_sign_witness :
  let da := Sample.map_values (λ x, x - 273.15)%float
              (Sample.pick "time" 4 Sample.sst_year) in
  Py.ge (default_limits false da).2 (default_limits false da).1 = true
  ∧ same_infinity (default_limits false da).1 (default_limits false da).2 = false
  ∧ Py.gt (sl_step (sliders da false).1) 0 = true.
Proof.
  intros da.
  destruct (slider_step_sign da false) as (Hstep & _ & _ & Hpos & _).
  assert (Hge : Py.ge (default_limits false da).2 (default_limits false da).1 = true)
    by (vm_compute; reflexivity).
  assert (Hinf : same_infinity (default_limits false da).1 (default_limits false da).2 = false)
    by (vm_compute; reflexivity).
  split; [exact Hge |]. split; [exact Hinf |].
  rewrite Hstep. exact (Hpos Hge Hinf).
Defined.

(** * Further properties *)

(** ** Strings and the error monad *)

Lemma append_empty_r (s : string) : s +:+ "" = s.
Proof.
  induction s as [|c s IH]; [done |].
  change (String c (s +:+ "") = String c s). by f_equal.
Qed.

Lemma bind_Raise {X Y : Type} (m : result X) (f : X → result Y) (e : exn) :
  m ≫= f = Raise e ↔ m = Raise e ∨ ∃ x, m = Ok x ∧ f x = Raise e.
Proof.
  destruct m as [x|e']; simpl; split.
  - intros Hf. right. by exists x.
  - by intros [[=]|(x' & [= <-] & Hf)].
  - intros [= <-]. by left.
  - by intros [[= <-]|(x' & [=] & _)].
Qed.

(** ** [find_var] and the variable tables *)

Lemma first_in_None {V : Type} (ds : gmap string V) (ks : list string) :
  first_in ds ks = None → ∀ k, k ∈ ks → ds !! k = None.
Proof.
  induction ks as [|k0 ks IH]; simpl.
  - intros _ k Hk. by apply elem_of_nil in Hk.
  - case_bool_decide as Hk0; [done |]. apply eq_None_not_Some in Hk0.
    intros Hall k [->|Hk]%elem_of_cons; [done | by apply IH].
Qed.

Lemma find_var_Raise `{!Py.Unicode} {V : Type} (ds : gmap string V) (short : string) (e : exn) :
  find_var ds short = Raise e →
  e = KeyError short ∧ ∀ k, k ∈ candidates short → ds !! k = None.
Proof.
  unfold find_var. destruct (first_in ds (candidates short)) eqn:Hf; [done |].
  intros [= <-]. split; [done | by apply first_in_None].
Qed.

(** X4: names that differ only in case find the same key: [find_var]
    returns [k] for one exactly when it does for the other, and raises for
    one (with that name) exactly when it raises for the other. *)
Theorem find_var_ignores_case `{!Py.Unicode} {V : Type} (ds : gmap string V) (s1 s2 : string) :
  Py.upper s1 = Py.upper s2 →
  (∀ k, find_var ds s1 = Ok k ↔ find_var ds s2 = Ok k)
  ∧ (find_var ds s1 = Raise (KeyError s1) ↔ find_var ds s2 = Raise (KeyError s2)).
Proof.
  intros Hup. unfold find_var, candidates. rewrite Hup.
  by destruct (first_in ds _) as [k'|].
Qed.

Lemma getitem_present {V : Type} (table : list (string * V)) (key : string) :
  key ∈ keys table → ∃ v, (key, v) ∈ table ∧ getitem table key = Ok v.
Proof.
  unfold keys. induction table as [|[k v] table IH]; simpl.
  - by intros ?%elem_of_nil.
  - case_bool_decide as Hk.
    + intros _. exists v. subst. split; [left | done].
    + intros [->|Hin]%elem_of_cons; [done |].
      destruct (IH Hin) as (v' & Hv' & Hget). exists v'. split; [by right | done].
Qed.

Lemma getitem_absent {V : Type} (table : list (string * V)) (key : string) :
  key ∉ keys table → getitem table key = Raise (KeyError key).
Proof.
  unfold keys. induction table as [|[k v] table IH]; simpl; [done |].
  intros Hnot. rewrite bool_decide_eq_false_2.
  - apply IH. intros Hin. apply Hnot. by right.
  - intros ->. apply Hnot. left.
Qed.

(** X12: the sidebar's lookup.  Any domain other than [Surface] is read as
    pressure level.  When the choice is a key of that domain's table the
    selection is one of its rows, with [plevel] set exactly for pressure
    level; when it is not, the lookup raises [KeyError] with the choice. *)
Theorem selection_outcomes (ui : Widgets) :
  let surface := bool_decide (field_type ui = "Surface") in
  let table := if surface then SURFACE else PRESSURE in
  (choice ui ∈ keys table →
     ∃ row, (choice ui, row) ∈ table
            ∧ selection ui
              = Ok (row, if surface then None else Some (plevel_choice ui)))
  ∧ (choice ui ∉ keys table → selection ui = Raise (KeyError (choice ui))).
Proof.
  intros surface table. unfold selection, table, surface.
  case_bool_decide as Hft; split.
  - intros (row & Hrow & Hget)%getitem_present. exists row. by rewrite Hget.
  - intros Hget%getitem_absent. by rewrite Hget.
  - intros (row & Hrow & Hget)%getitem_present. exists row. by rewrite Hget.
  - intros Hget%getitem_absent. by rewrite Hget.
Qed.

Lemma offered_selection (ui : Widgets) :
  offered ui → ∃ row plevel, selection ui = Ok (row, plevel).
Proof.
  intros [Hsel _]. destruct ui as [ft ch pc y m sa sc sl ap]; simpl in *.
  destruct Hsel as [[-> Hch]|(-> & Hch & _)];
    unfold keys in Hch; simpl in Hch;
    rewrite ?elem_of_cons, elem_of_nil in Hch;
    repeat (destruct Hch as [->|Hch]; [|try done]);
    by eexists _, _.
Qed.

Lemma distinctb_NoDup (l : list string) : distinctb l = true → NoDup l.
Proof.
  induction l as [|x l IH]; simpl; [constructor |].
  intros [Hx Hl]%andb_prop. constructor; [|by apply IH].
  intros Hin. rewrite forallb_forall in Hx.
  apply list_elem_of_In, Hx in Hin. by rewrite String.eqb_refl in Hin.
Qed.

Lemma NoDup_fmap_inj {X Y : Type} (f : X → Y) (l : list X) (x y : X) :
  NoDup (f <$> l) → x ∈ l → y ∈ l → f x = f y → x = y.
Proof.
  induction l as [|z l IH]; [by intros _ ?%elem_of_nil |].
  rewrite fmap_cons, NoDup_cons, !elem_of_cons.
  intros [Hz Hl] [->|Hx] [->|Hy] Hf; [done | | |by apply IH].
  - destruct Hz. rewrite Hf. by apply list_elem_of_fmap_2.
  - destruct Hz. rewrite <- Hf. by apply list_elem_of_fmap_2.
Qed.

(** ** One URL per variable and year *)

Lemma offered_urls_distinct :
  NoDup ((λ f, rda_url f.2 (domain f.1) (code f.1) (vname f.1)) <$> offered_fetches).
Proof. apply distinctb_NoDup. vm_compute. reflexivity. Qed.

(** X8: over the rows of the two tables and the offered years, [rda_url]
    is one-to-one: [open_year], cached by URL, never serves the data of one
    variable or year for another. *)
Theorem rda_url_distinct (key key' : string) (row row' : VarRow) (y y' : Z) :
  (key, row) ∈ SURFACE ++ PRESSURE → (key', row') ∈ SURFACE ++ PRESSURE →
  y ∈ YEARS → y' ∈ YEARS →
  rda_url y (domain row) (code row) (vname row)
  = rda_url y' (domain row') (code row') (vname row') →
  row = row' ∧ y = y'.
Proof.
  intros Hrow Hrow' Hy Hy' Hurl.
  assert (Hin : ∀ k r z, (k, r) ∈ SURFACE ++ PRESSURE → z ∈ YEARS →
                         (r, z) ∈ offered_fetches).
  { intros k r z Hr Hz. unfold offered_fetches.
    apply list_elem_of_bind. exists r. split.
    - apply list_elem_of_bind. exists z. split; [by left | done].
    - by apply (list_elem_of_fmap_2 snd _ (k, r)). }
  pose proof (NoDup_fmap_inj _ _ (row, y) (row', y') offered_urls_distinct
                (Hin _ _ _ Hrow Hy) (Hin _ _ _ Hrow' Hy') Hurl) as Heq.
  by injection Heq.
Qed.


(** ** More IEEE-754 facts *)

Lemma gt_abs_sub_nan_l (x gap : float) : Py.gt (abs (nan - x)) gap = false.
Proof.
  unfold Py.gt. rewrite FloatAxioms.ltb_spec, abs_spec, FloatAxioms.sub_spec.
  change (Prim2SF nan) with S754_nan. simpl. unfold SFltb.
  by destruct (Prim2SF gap).
Qed.

Lemma gt_abs_sub_nan_r (x gap : float) : Py.gt (abs (x - nan)) gap = false.
Proof.
  unfold Py.gt. rewrite FloatAxioms.ltb_spec, abs_spec, FloatAxioms.sub_spec.
  change (Prim2SF nan) with S754_nan.
  assert (SF64sub (Prim2SF x) S754_nan = S754_nan) as -> by by destruct (Prim2SF x).
  simpl. unfold SFltb. by destruct (Prim2SF gap).
Qed.

Lemma SFcompare_refl (x : spec_float) :
  x ≠ S754_nan → SFcompare x x = Some Eq.
Proof.
  destruct x as [s|s| |s m e]; simpl; try done; intros _.
  - by destruct s.
  - rewrite Z.compare_refl.
    change (PosDef.Pos.compare_cont Eq m m) with (Pos.compare m m).
    rewrite Pos.compare_refl. by destruct s.
Qed.

Lemma SFcompare_None (x y : spec_float) :
  SFcompare x y = None ↔ x = S754_nan ∨ y = S754_nan.
Proof.
  destruct x as [sx|sx| |sx mx ex], y as [sy|sy| |sy my ey]; simpl;
    split; try done; try (by left); try (by right); by intros [|].
Qed.

Lemma is_nan_spec (x : float) : is_nan x = true ↔ Prim2SF x = S754_nan.
Proof.
  unfold is_nan. rewrite FloatAxioms.eqb_spec. unfold SFeqb. split.
  - intros Hx. destruct (Prim2SF x) as [s|s| |s m e] eqn:Hp; [| |done |];
      by rewrite SFcompare_refl in Hx.
  - by intros ->.
Qed.

(** [a >= b] fails exactly when [a < b] or one of the two is NaN. *)
Lemma not_ge_iff (a b : float) :
  Py.ge a b = false ↔ (a <? b)%float = true ∨ is_nan a = true ∨ is_nan b = true.
Proof.
  unfold Py.ge. rewrite FloatAxioms.leb_spec, FloatAxioms.ltb_spec, !is_nan_spec.
  unfold SFleb, SFltb. rewrite (SFcompare_antisym (Prim2SF a) (Prim2SF b)).
  pose proof (SFcompare_None (Prim2SF a) (Prim2SF b)) as Hnone.
  destruct (SFcompare (Prim2SF a) (Prim2SF b)) as [[]|]; simpl.
  - split; [done |]. intros [?|H]; [done |]. by apply Hnone in H.
  - split; [by left | done].
  - split; [done |]. intros [?|H]; [done |]. by apply Hnone in H.
  - split; [|done]. intros _. right. by apply Hnone.
Qed.

Section FurtherProperties.
Context {A : Type} `{!DataArrayOps A} {unicode : Py.Unicode}.
Variable app_dir : list string.
Variable w : World A.

(** ** The coastline trace *)

Lemma with_gap_breaks_length (gap : float) (pts : list (float * float)) :
  length pts ≤ length (with_gap_breaks gap pts) ≤ 2 * length pts.
Proof.
  induction pts as [|p rest IH]; [simpl; lia |].
  cbn [with_gap_breaks length]. rewrite length_app.
  destruct rest as [|q rest]; [simpl; lia |].
  set (r := with_gap_breaks gap (q :: rest)) in *. clearbody r.
  destruct (Py.gt _ _); cbn [length] in *; lia.
Qed.

Lemma polyline_length (gap : float) (geoms : list Geometry) :
  let lines := geoms ≫= geoms_of in
  let vertices := sum_list (length <$> lines) in
  length lines + vertices
  ≤ length (polyline_with_gap_breaks (np_mod w) gap geoms)
  ≤ length lines + 2 * vertices.
Proof.
  intros lines vertices. unfold polyline_with_gap_breaks. fold lines.
  unfold vertices. clearbody lines. clear vertices.
  induction lines as [|line lines IH]; [simpl; lia |].
  rewrite bind_cons, length_app. cbn [length fmap list_fmap sum_list sum_list_with].
  pose proof (with_gap_breaks_length gap ((λ p, (np_mod w p.1 360, p.2)) <$> line)) as Hl.
  rewrite length_fmap in Hl. change (id (length line)) with (length line). lia.
Qed.

(** X1: [coastlines_trace] always returns a trace; its [x] and [y] have
    the same length, which lies between (lines + vertices) and
    (lines + 2 * vertices); with no line at all the trace is empty. *)
Theorem coastlines_trace_size (res : string) (gap : float) :
  let lines := natural_earth_coastline w res ≫= geoms_of in
  let vertices := sum_list (length <$> lines) in
  ∃ tr, coastlines_trace w res gap = Ok tr
        ∧ length (sc_x tr) = length (sc_y tr)
        ∧ length lines + vertices ≤ length (sc_x tr) ≤ length lines + 2 * vertices
        ∧ (lines = [] → sc_x tr = [] ∧ sc_y tr = []).
Proof.
  intros lines vertices. unfold coastlines_trace. rewrite geoms_loop.
  eexists. split; [reflexivity |]. simpl.
  rewrite !length_fmap. split; [done |]. split; [apply polyline_length |].
  intros Hl. unfold polyline_with_gap_breaks. fold lines. by rewrite Hl.
Qed.

Lemma no_jump_lookup (gap : float) (l : list float) (i : nat) (x x' : float) :
  no_jump gap l → l !! i = Some x → l !! (i + 1) = Some x' →
  Py.gt (abs (x' - x)) gap = false.
Proof.
  rewrite Nat.add_1_r. revert i.
  induction l as [|y l IH]; intros i Hn Hi Hi'; [done |].
  destruct l as [|y' l]; [by destruct i |].
  destruct Hn as [Hy Hn]. destruct i as [|i]; simpl in *.
  - by simplify_eq.
  - by apply (IH i).
Qed.

Lemma no_jump_nan_cons (gap : float) (l : list float) :
  no_jump gap l → no_jump gap (nan :: l).
Proof. destruct l as [|x l]; [done |]. intros Hl. split; [apply gt_abs_sub_nan_r | done]. Qed.

Lemma no_jump_app_nan (gap : float) (l1 l2 : list float) :
  no_jump gap l1 → no_jump gap l2 → no_jump gap (l1 ++ nan :: l2).
Proof.
  intros H1 H2. induction l1 as [|x [|x' l1] IH].
  - by apply no_jump_nan_cons.
  - split; [apply gt_abs_sub_nan_l | by apply no_jump_nan_cons].
  - destruct H1 as [Hx H1]. split; [done | by apply IH].
Qed.

Lemma with_gap_breaks_no_jump (gap : float) (pts : list (float * float)) :
  no_jump gap (with_gap_breaks gap pts).*1.
Proof.
  induction pts as [|p [|q rest] IH]; [done.. |].
  cbn [with_gap_breaks]. cbn [with_gap_breaks] in IH.
  destruct (Py.gt (abs (q.1 - p.1)) gap) eqn:Hgt.
  - cbn. split; [apply gt_abs_sub_nan_l |]. split; [apply gt_abs_sub_nan_r |]. apply IH.
  - cbn. split; [done |]. apply IH.
Qed.

Lemma no_jump_tail (gap : float) (x : float) (l : list float) :
  no_jump gap (x :: l) → no_jump gap l.
Proof. destruct l as [|x' l]; [done | by intros [_ ?]]. Qed.

Lemma lines_no_jump (gap : float) (lines : list LineString) :
  no_jump gap
    (line ← lines;
     (nan, nan) :: with_gap_breaks gap ((λ p, (np_mod w p.1 360, p.2)) <$> line)).*1.
Proof.
  induction lines as [|line lines IH]; [exact I |].
  rewrite bind_cons, fmap_app.
  assert (Hline : no_jump gap
            ((nan, nan) :: with_gap_breaks gap ((λ p, (np_mod w p.1 360, p.2)) <$> line)).*1)
    by apply no_jump_nan_cons, with_gap_breaks_no_jump.
  destruct lines as [|line' lines]; [by rewrite app_nil_r |].
  rewrite bind_cons, fmap_app, fmap_cons in IH |- *.
  apply no_jump_app_nan; [done | by eapply no_jump_tail].
Qed.

(** X2: no two neighbouring points of the trace are more than [gap] apart
    in longitude, so no segment is drawn across a jump (a NaN break always
    lies in between). *)
Theorem coastlines_trace_no_jump (res : string) (gap : float) :
  ∃ tr, coastlines_trace w res gap = Ok tr
        ∧ ∀ i x x', sc_x tr !! i = Some x → sc_x tr !! (i + 1) = Some x' →
                    Py.gt (abs (x' - x)) gap = false.
Proof.
  unfold coastlines_trace. rewrite geoms_loop. eexists. split; [reflexivity |].
  simpl. intros i x x'. apply no_jump_lookup, lines_no_jump.
Qed.

Lemma with_gap_breaks_vertices (gap : float) (pts : list (float * float)) :
  Forall (λ p, is_nan p.1 = false) pts →
  filter (λ p, is_nan p.1 = false) (with_gap_breaks gap pts) = pts.
Proof.
  induction 1 as [|p rest Hp Hrest IH]; [done |].
  cbn [with_gap_breaks]. rewrite filter_cons_True by done. f_equal.
  rewrite filter_app, IH.
  destruct rest as [|q rest]; [done |]. by destruct (Py.gt _ _).
Qed.

Lemma lines_vertices (gap : float) (lines : list LineString) :
  Forall (λ p, is_nan p.1 = false)
    (line ← lines; (λ p, (np_mod w p.1 360, p.2)) <$> line) →
  filter (λ p, is_nan p.1 = false)
    (line ← lines;
     (nan, nan) :: with_gap_breaks gap ((λ p, (np_mod w p.1 360, p.2)) <$> line))
  = (line ← lines; (λ p, (np_mod w p.1 360, p.2)) <$> line).
Proof.
  induction lines as [|line lines IH]; [done |].
  rewrite !bind_cons. intros [Hline Hlines]%Forall_app.
  rewrite filter_app, (IH Hlines), filter_cons_False by done.
  by rewrite with_gap_breaks_vertices.
Qed.

(** X3: the breaks are the only additions.  When no vertex has a NaN
    longitude after the reduction, dropping the points whose [x] is NaN
    from the trace leaves every vertex of the coastline, once and in
    order. *)
Theorem coastlines_trace_vertices (res : string) (gap : float) :
  Forall (λ p, is_nan p.1 = false)
    (coastline_vertices (np_mod w) (natural_earth_coastline w res)) →
  ∃ tr, coastlines_trace w res gap = Ok tr
        ∧ filter (λ p, is_nan p.1 = false) (zip (sc_x tr) (sc_y tr))
          = coastline_vertices (np_mod w) (natural_earth_coastline w res).
Proof.
  intros Hv. unfold coastlines_trace. rewrite geoms_loop. eexists.
  split; [reflexivity |]. simpl. rewrite zip_fst_snd.
  by apply lines_vertices.
Qed.

(** ** Climatology files, units and title *)

Lemma offered_clim_files_distinct :
  NoDup ((λ c, if bool_decide (domain c.1 = "sfc") then vname c.1 +:+ ".nc"
               else vname c.1 +:+ "_" +:+ str_of_plevel c.2 +:+ ".nc")
         <$> offered_climatologies).
Proof. apply distinctb_NoDup. vm_compute. reflexivity. Qed.

(** X9: over the offered variables and levels, [clim_path] is
    one-to-one: two selections never read the same climatology file. *)
Theorem clim_path_distinct (c c' : VarRow * option Z) :
  c ∈ offered_climatologies → c' ∈ offered_climatologies →
  clim_path app_dir (domain c.1) (vname c.1) c.2
  = clim_path app_dir (domain c'.1) (vname c'.1) c'.2 →
  c = c'.
Proof.
  intros Hc Hc' Hpath. unfold clim_path in Hpath.
  apply app_inv_head in Hpath. injection Hpath as _ Hfile.
  exact (NoDup_fmap_inj _ _ c c' offered_clim_files_distinct Hc Hc' Hfile).
Qed.

(** X10: for every row of the two tables the units shown after the unit
    conversion are the row's own, except for [Temperature], whose row says
    [K] and which is shown in [°C]. *)
Theorem displayed_units (key : string) (row : VarRow) (da : A) :
  (key, row) ∈ SURFACE ++ PRESSURE →
  (unit_conversion (vname row) da (units row)).2
  = if bool_decide (key = "Temperature") then "°C" else units row.
Proof.
  unfold SURFACE, PRESSURE. simpl app. rewrite !elem_of_cons, elem_of_nil.
  intros H; repeat (destruct H as [[= -> ->]|H]; [reflexivity |]); done.
Qed.

(** X11: for every offered selection the title is the choice, the month
    on two digits and the year, then the level exactly for pressure-level
    fields (no offered level is the falsy 0), then the anomaly mark exactly
    in the anomaly view. *)
Theorem title_of_selection (ui : Widgets) (row : VarRow) (plevel : option Z) :
  offered ui → selection ui = Ok (row, plevel) →
  let month := Py.str_of_int_02d (mon ui) in
  let level :=
    if bool_decide (field_type ui = "Surface") then ""
    else " • " +:+ Py.str_of_int (plevel_choice ui) +:+ " hPa" in
  let anom := if show_anom ui then " • anomaly" else "" in
  String.length month = 2
  ∧ title ui plevel
    = (choice ui +:+ " • " +:+ month +:+ "/" +:+ Py.str_of_int (yr ui) +:+ level)
      +:+ anom.
Proof.
  intros (Hsel & _ & Hmon) Hrow. cbv zeta. split.
  - assert (Hm : mon ui ∈ seqZ 1 12) by (apply elem_of_seqZ; lia).
    revert Hm. generalize (mon ui). intros m.
    vm_compute seqZ. rewrite !elem_of_cons, elem_of_nil.
    intros H; repeat (destruct H as [->|H]; [reflexivity |]); done.
  - apply selection_Ok in Hrow as [_ [(Hft & _ & ->)|(Hft & _ & ->)]].
    + unfold title. rewrite (bool_decide_eq_true_2 _ Hft).
      destruct (show_anom ui); [done | symmetry; apply append_empty_r].
    + unfold title. rewrite (bool_decide_eq_false_2 _ Hft).
      destruct Hsel as [[Hft' _]|(_ & _ & Hlvl)]; [done |].
      rewrite bool_decide_eq_false_2.
      * destruct (show_anom ui); [done | symmetry; apply append_empty_r].
      * intros H0. rewrite H0 in Hlvl. unfold COMMON_PLEVELS in Hlvl.
        rewrite !elem_of_cons, elem_of_nil in Hlvl.
        repeat (destruct Hlvl as [?|Hlvl]; [done |]). done.
Qed.

(** ** How a run can fail *)

(** The script is the displayed field followed by the colour-bar
    controls. *)
Lemma script_displayed_field (ui : Widgets) :
  script app_dir w ui
  = '(row, plevel, (da, cmap, units)) ← displayed_field app_dir w ui;
    let '(default_min, default_max) := default_limits (show_anom ui) da in
    let '(cmin, cmax) := colour_limits ui da in
    Ok (mkVars row plevel da units cmap (np_nanmin da) (np_nanmax da)
          default_min default_max (slider_step default_min default_max)
          (sliders da (show_anom ui)) cmin cmax).
Proof.
  unfold script, displayed_field.
  destruct (selection ui) as [[row plevel]|e]; [|done].
  cbn [mbind result_bind].
  destruct (load_field w row plevel (yr ui) (mon ui)) as [monthly|e]; [|done].
  cbn [mbind result_bind].
  destruct (unit_conversion _ _ _) as [converted u].
  by destruct (anomaly _ _ _ _ _ _ _ _) as [[[da cmap] u']|e].
Qed.

Lemma load_field_Raise (row : VarRow) (plevel : option Z) (y m : Z) (e : exn) :
  load_field w row plevel y m = Raise e →
  let url := rda_url y (domain row) (code row) (vname row) in
  (thredds w url = None ∧ e = OSError [url])
  ∨ (∃ ds, thredds w url = Some ds
           ∧ (∀ k, k ∈ candidates (vname row) → ds !! k = None)
           ∧ e = KeyError (vname row))
  ∨ (∃ ds k v, thredds w url = Some ds
               ∧ find_var ds (vname row) = Ok k
               ∧ ds !! k = Some v
               ∧ (isel_time v (m - 1) = Raise e
                  ∨ ∃ da l, isel_time v (m - 1) = Ok da
                            ∧ plevel = Some l ∧ sel_level da l = Raise e)).
Proof.
  intros Hload url. unfold load_field, open_year in Hload. fold url in Hload.
  destruct (thredds w url) as [ds|]; [|injection Hload as <-; by left].
  right. cbn [mbind result_bind] in Hload.
  destruct (find_var ds (vname row)) as [k|e'] eqn:Hk.
  - right. destruct (getvar_find_var ds _ k Hk) as (v & Hv & Hget).
    cbn [mbind result_bind] in Hload. rewrite Hget in Hload.
    cbn [mbind result_bind] in Hload.
    exists ds, k, v. repeat split; try done.
    destruct (isel_time v (m - 1)) as [da|e''] eqn:Hisel.
    + right. cbn [mbind result_bind] in Hload.
      destruct plevel as [l|]; [|done]. by exists da, l.
    + left. by injection Hload as <-.
  - left. injection Hload as <-. apply find_var_Raise in Hk as [-> Habs].
    by exists ds.
Qed.

(** X5: the exceptions of the script up to the colour-bar controls, on
    offered widgets.  Producing the displayed field (selection, monthly
    field, unit conversion, anomaly) raises only when the server has no
    dataset at the URL ([OSError]), when that dataset has none of the
    candidate keys ([KeyError] with the variable name), when the library
    cannot select the month or the level, or, in the anomaly view, for the
    same three reasons on the climatology file.  The table lookup never
    raises, and the array arithmetic is total in [DataArrayOps]. *)
Theorem displayed_field_failure_modes (ui : Widgets) (e : exn) :
  offered ui → displayed_field app_dir w ui = Raise e →
  ∃ row plevel,
    selection ui = Ok (row, plevel)
    ∧ let url := rda_url (yr ui) (domain row) (code row) (vname row) in
      let path := clim_path app_dir (domain row) (vname row) plevel in
      (thredds w url = None ∧ e = OSError [url])
      ∨ (∃ ds, thredds w url = Some ds
               ∧ (∀ k, k ∈ candidates (vname row) → ds !! k = None)
               ∧ e = KeyError (vname row))
      ∨ (∃ ds k v, thredds w url = Some ds
                   ∧ find_var ds (vname row) = Ok k
                   ∧ ds !! k = Some v
                   ∧ (isel_time v (mon ui - 1) = Raise e
                      ∨ ∃ da l, isel_time v (mon ui - 1) = Ok da
                                ∧ plevel = Some l ∧ sel_level da l = Raise e))
      ∨ (show_anom ui = true
         ∧ ((files w path = None ∧ e = OSError path)
            ∨ (∃ ds, files w path = Some ds
                     ∧ (∀ k, k ∈ candidates (vname row) → ds !! k = None)
                     ∧ e = KeyError (vname row))
            ∨ (∃ ds k clim, files w path = Some ds
                            ∧ find_var ds (vname row) = Ok k
                            ∧ ds !! k = Some clim
                            ∧ sel_month clim (mon ui) = Raise e))).
Proof.
  intros (row & plevel & Hsel)%offered_selection Hrun.
  exists row, plevel. split; [done |]. cbv zeta.
  unfold displayed_field in Hrun. rewrite Hsel in Hrun. cbn [mbind result_bind] in Hrun.
  destruct (load_field w row plevel (yr ui) (mon ui)) as [monthly|e'] eqn:Hload.
  - cbn [mbind result_bind] in Hrun.
    destruct (unit_conversion _ _ _) as [converted u].
    destruct (anomaly _ _ _ _ _ _ _ _) as [[[da cmap] u']|e'] eqn:Hanom.
    { done. }
    injection Hrun as ->. do 3 right.
    unfold anomaly in Hanom. destruct (show_anom ui); [|done]. split; [done |].
    unfold load_clim in Hanom.
    destruct (files w _) as [ds|]; [|injection Hanom as <-; by left].
    right. cbn [mbind result_bind] in Hanom.
    destruct (find_var ds (vname row)) as [k|e'] eqn:Hk.
    + right. destruct (getvar_find_var ds _ k Hk) as (clim & Hclim & Hget).
      cbn [mbind result_bind] in Hanom. rewrite Hget in Hanom.
      cbn [mbind result_bind] in Hanom.
      exists ds, k, clim. repeat split; try done.
      destruct (sel_month clim (mon ui)) as [c|e''];
        cbn [mbind result_bind] in Hanom; [done | by injection Hanom as <-].
    + left. injection Hanom as <-. apply find_var_Raise in Hk as [-> Habs].
      by exists ds.
  - injection Hrun as ->. apply load_field_Raise in Hload. cbv zeta in Hload.
    destruct Hload as [?|[?|?]]; [by left | right; by left | do 2 right; by left].
Qed.

(** X6: what the validation lets through.  A run whose script succeeds
    renders exactly when [cmin < cmax] or one of the two limits is NaN: NaN
    limits are not rejected.  Equal limits stop the run. *)
Theorem rendered_iff_ordered_or_nan (ui : Widgets) (v : Vars A) :
  script app_dir w ui = Ok v →
  ((∃ fig, run app_dir w ui = Rendered fig)
   ↔ (v_cmin v <? v_cmax v)%float = true
     ∨ is_nan (v_cmin v) = true ∨ is_nan (v_cmax v) = true)
  ∧ ((v_cmin v =? v_cmax v)%float = true →
     run app_dir w ui = Stopped "Min must be less than Max").
Proof.
  intros Hv. unfold run. rewrite Hv. destruct (plot_Ok w ui v) as [traces ->].
  rewrite <- not_ge_iff. split.
  - destruct (Py.ge (v_cmin v) (v_cmax v)); split; try done.
    + by intros [fig [=]].
    + by eexists.
  - intros Heq.
    assert (Py.ge (v_cmin v) (v_cmax v) = true) as ->; [|done].
    unfold Py.ge. rewrite FloatAxioms.leb_spec. rewrite FloatAxioms.eqb_spec in Heq.
    unfold SFleb, SFeqb in *. rewrite (SFcompare_antisym (Prim2SF (v_cmin v))).
    by destruct (SFcompare (Prim2SF (v_cmin v)) _) as [[]|].
Qed.

(** X7: the coastline box only adds the trace.  Ticking it leaves a run
    that raises or stops as it is, and a rendered figure unchanged but for
    its traces: the coastline trace at resolution [110m] and gap 10 when
    ticked, none otherwise. *)
Theorem show_coast_adds_the_trace (ui : Widgets) :
  ∃ tr,
    coastlines_trace w "110m" 10 = Ok tr
    ∧ ∀ b,
        run app_dir w (with_show_coast b ui)
        = match run app_dir w (with_show_coast false ui) with
          | Rendered fig =>
              Rendered (mkFigure (fig_data fig) (fig_color_continuous_scale fig)
                          (fig_color_label fig) (fig_title fig)
                          (fig_cmin fig) (fig_cmax fig)
                          (if b then [tr] else []))
          | outcome => outcome
          end.
Proof.
  destruct (coastlines_trace_Ok w "110m" 10) as [tr Htr]. exists tr.
  split; [done |]. intros b. unfold run.
  change (script app_dir w (with_show_coast b ui))
    with (script app_dir w (with_show_coast false ui)).
  destruct (script app_dir w (with_show_coast false ui)) as [v|e]; [|done].
  destruct (Py.ge (v_cmin v) (v_cmax v)); [done |].
  unfold plot. simpl. rewrite Htr. by destruct b.
Qed.


End FurtherProperties.

(** ** The further properties on concrete inputs *)

Lemma coastlines_trace_vertices_witness :
  Forall (λ p, is_nan p.1 = false)
    (coastline_vertices (np_mod Sample.world)
       (natural_earth_coastline Sample.world "110m"))
  ∧ ∃ tr, coastlines_trace Sample.world "110m" 10 = Ok tr
          ∧ filter (λ p, is_nan p.1 = false) (zip (sc_x tr) (sc_y tr))
            = [(359, 0); (1, 0); (1, 2); (359, 2); (359, 0);
               (170, 60); (175, 61); (20, -10)]%float.
Proof.
  assert (Hv : Forall (λ p, is_nan p.1 = false)
                 (coastline_vertices (np_mod Sample.world)
                    (natural_earth_coastline Sample.world "110m")))
    by (vm_compute; repeat constructor).
  split; [exact Hv |].
  destruct (coastlines_trace_vertices Sample.world "110m" 10 Hv) as (tr & Htr & Hf).
  exists tr. split; [exact Htr |]. rewrite Hf. vm_compute. reflexivity.
Defined.

Lemma find_var_ignores_case_witness :
  let ds : gmap string nat := {[ "VAR_SSTK" := 7; "CAFÉ" := 8 ]} in
  Py.upper "sstk" = Py.upper "SsTk"
  ∧ (find_var ds "SsTk" = Ok "VAR_SSTK" ↔ find_var ds "sstk" = Ok "VAR_SSTK")
  ∧ Py.upper "café" = Py.upper "Café"
  ∧ find_var ds "café" = Ok "CAFÉ"
  ∧ find_var ds "Café" = Ok "CAFÉ".
Proof.
  intros ds. split; [reflexivity |]. split.
  { exact (proj1 (find_var_ignores_case ds "SsTk" "sstk" eq_refl) "VAR_SSTK"). }
  split; [reflexivity |].
  assert (H1 : find_var ds "café" = Ok "CAFÉ") by (vm_compute; reflexivity).
  split; [exact H1 |].
  exact (proj1 (proj1 (find_var_ignores_case ds "café" "Café" eq_refl) "CAFÉ") H1).
Defined.

Lemma displayed_field_failure_modes_witness :
  offered Sample.sst_may_anomaly
  ∧ displayed_field Sample.app_dir Sample.offline Sample.sst_may_anomaly
    = Raise (OSError [rda_url 2001 "sfc" "034" "sstk"])
  ∧ ∃ row plevel,
      selection Sample.sst_may_anomaly = Ok (row, plevel)
      ∧ thredds Sample.offline
          (rda_url 2001 (domain row) (code row) (vname row)) = None.
Proof.
  assert (Hoff : offered Sample.sst_may_anomaly).
  { split; [|split].
    - left. split; [reflexivity |].
      apply (list_elem_of_lookup_2 _ 0). reflexivity.
    - apply elem_of_seqZ. simpl. lia.
    - simpl. lia. }
  assert (Hrun : displayed_field Sample.app_dir Sample.offline
                   Sample.sst_may_anomaly
                 = Raise (OSError [rda_url 2001 "sfc" "034" "sstk"]))
    by (vm_compute; reflexivity).
  split; [exact Hoff |]. split; [exact Hrun |].
  destruct (displayed_field_failure_modes Sample.app_dir Sample.offline
              Sample.sst_may_anomaly _ Hoff Hrun) as (row & plevel & Hsel & _).
  exists row, plevel. split; [exact Hsel |]. reflexivity.
Defined.

Lemma rendered_iff_ordered_or_nan_witness :
  ∃ v, script Sample.app_dir Sample.world Sample.sst_may = Ok v
       ∧ (v_cmin v <? v_cmax v)%float = true
       ∧ ∃ fig, run Sample.app_dir Sample.world Sample.sst_may = Rendered fig.
Proof.
  destruct (script Sample.app_dir Sample.world Sample.sst_may)
    as [v|e] eqn:Hscript; [|vm_compute in Hscript; discriminate].
  exists v. split; [reflexivity |].
  destruct (rendered_iff_ordered_or_nan Sample.app_dir Sample.world _ v Hscript)
    as [Hiff _].
  assert (Hlt : (v_cmin v <? v_cmax v)%float = true).
  { vm_compute in Hscript. injection Hscript as <-. vm_compute. reflexivity. }
  split; [exact Hlt |]. apply Hiff. by left.
Defined.

Lemma rda_url_distinct_witness :
  let sst := mkRow "sfc" "034" "sstk" "°C" "thermal" "RdBu_r" in
  ("Sea-surface temperature", sst) ∈ SURFACE ++ PRESSURE
  ∧ (2001 ∈ YEARS)%Z
  ∧ (sst = sst ∧ 2001 = 2001)%Z.
Proof.
  intros sst.
  assert (Hrow : ("Sea-surface temperature", sst) ∈ SURFACE ++ PRESSURE)
    by (apply (list_elem_of_lookup_2 _ 0); reflexivity).
  assert (Hy : (2001 ∈ YEARS)%Z) by (apply elem_of_seqZ; lia).
  split; [exact Hrow |]. split; [exact Hy |].
  exact (rda_url_distinct _ _ sst sst 2001 2001 Hrow Hrow Hy Hy eq_refl).
Defined.

Lemma clim_path_distinct_witness :
  let u250 := (mkRow "pl" "131" "u" "m s⁻¹" "curl" "RdBu_r", Some 250%Z) in
  u250 ∈ offered_climatologies
  ∧ clim_path Sample.app_dir "pl" "u" (Some 250%Z)
    = ["srv"; "app"; "climatology"; "pl"; "u_250.nc"]
  ∧ u250 = u250.
Proof.
  intros u250.
  assert (Hin : u250 ∈ offered_climatologies)
    by (apply (list_elem_of_lookup_2 _ 36); reflexivity).
  split; [exact Hin |]. split; [reflexivity |].
  exact (clim_path_distinct Sample.app_dir u250 u250 Hin Hin eq_refl).
Defined.

Lemma displayed_units_witness :
  let t := mkRow "pl" "130" "t" "K" "thermal" "RdBu_r" in
  ("Temperature", t) ∈ SURFACE ++ PRESSURE
  ∧ (unit_conversion "t" Sample.u_year "K").2 = "°C".
Proof.
  intros t.
  assert (Hin : ("Temperature", t) ∈ SURFACE ++ PRESSURE)
    by (apply (list_elem_of_lookup_2 _ 10); reflexivity).
  split; [exact Hin |].
  exact (displayed_units "Temperature" t Sample.u_year Hin).
Defined.

Lemma title_of_selection_witness :
  offered Sample.u_250_march
  ∧ ∃ row plevel,
      selection Sample.u_250_march = Ok (row, plevel)
      ∧ title Sample.u_250_march plevel = "Zonal wind • 03/2001 • 250 hPa".
Proof.
  split; [exact offered_u_250_march |].
  destruct (selection Sample.u_250_march) as [[row plevel]|e] eqn:Hsel;
    [|vm_compute in Hsel; discriminate].
  exists row, plevel. split; [reflexivity |].
  destruct (title_of_selection Sample.u_250_march row plevel
              offered_u_250_march Hsel) as [_ Htitle].
  rewrite Htitle. vm_compute. reflexivity.
Defined.
